(** * DB-backed OCI plugin discovery: cache validation, refresh and queries

    A shallow embedding of [DBBackedOCIDiscovery] (package [discovery]):
    the digest-marker cache check, the verify / download / merge / promote
    refresh, and the adaptation of inventory entries into [Discovered]
    values.  Stateful code is written in a small state monad over the
    cache directory and a trace of the calls made to the collaborators. *)

From Stdlib Require Import Ascii String.
From stdpp Require Import gmap strings list fin_maps.

(** ** Go errors

    [errors.Wrapf(err, format, args...)] is kept structured: the format
    string, its arguments and the wrapped cause.  [errors.Wrap(err, msg)]
    is [Wrapf msg [] err].  A Go [error] value that may be [nil] is an
    [option error]. *)
Inductive error : Type :=
| ErrExternal (msg : string)
| Wrapf (format : string) (args : list string) (cause : error).

Definition Wrap (cause : error) (msg : string) : error := Wrapf msg [] cause.

(** The image references an error message was formatted with, outermost
    wrapper first. *)
Fixpoint errorArgs (e : error) : list string :=
  match e with
  | ErrExternal _ => []
  | Wrapf _ args cause => args ++ errorArgs cause
  end.

(** ** Paths and the digest glob *)

(** [filepath.Join] of a directory and one element.  The directory is taken
    as non-empty and already clean, and the element as needing no
    cleaning. *)
Definition Join (dir name : string) : string := dir +:+ "/" +:+ name.

Fixpoint stripPrefix (p s : string) : option string :=
  match p with
  | EmptyString => Some s
  | String a p' =>
      match s with
      | EmptyString => None
      | String b s' => if decide (a = b) then stripPrefix p' s' else None
      end
  end.

Fixpoint hasSeparator (s : string) : bool :=
  match s with
  | EmptyString => false
  | String a s' => if decide (a = "/"%char) then true else hasSeparator s'
  end.

(** Whether [path] is matched by the pattern
    [filepath.Join(dir, digestPrefix+"digest.*")]: the literal part must be
    a prefix of the path and [*] matches any run of non-separator
    characters.  The directory and the prefix are taken literally (neither
    holds a glob metacharacter at the call sites). *)
Definition matchDigest (dir digestPrefix path : string) : bool :=
  match stripPrefix (Join dir (digestPrefix +:+ "digest.")) path with
  | Some rest => negb (hasSeparator rest)
  | None => false
  end.

(** ** Query filters *)

Record PluginInventoryFilter : Type := {
  Filter_Name : string;
  Filter_Target : string;
  Filter_Version : string;
  Filter_OS : string;
  Filter_Arch : string;
  Filter_IncludeHidden : bool
}.

Record PluginGroupFilter : Type := {
  GroupFilter_Vendor : string;
  GroupFilter_Publisher : string;
  GroupFilter_Name : string;
  GroupFilter_Version : string;
  GroupFilter_IncludeHidden : bool
}.

Record PluginDiscoveryCriteria : Type := {
  Criteria_Name : string;
  Criteria_Target : string;
  Criteria_Version : string;
  Criteria_OS : string;
  Criteria_Arch : string
}.

Record GroupDiscoveryCriteria : Type := {
  GroupCriteria_Vendor : string;
  GroupCriteria_Publisher : string;
  GroupCriteria_Name : string;
  GroupCriteria_Version : string
}.

(** ** Calls observed by the outside

    Every call to a collaborator or to the file system is recorded, in
    order.  Diagnostic logging through the [log] package is not traced;
    the warning written to [os.Stderr] is. *)

Inductive event : Type :=
| EvGetImageDigest (image : string)
| EvVerifySignature (image : string)
| EvMkdirTemp (n : nat)
| EvRemoveAll (n : nat)
| EvDownload (image : string) (n : nat)
| EvUpdateDatabase
| EvCopyFile (dst : string)
| EvGlob (pattern : string)
| EvRemove (path : string)
| EvCreate (path : string)
| EvStderr (pluginName : string) (err : error)
| EvGetPlugins (f : PluginInventoryFilter)
| EvGetPluginGroups (f : PluginGroupFilter).

(** Calls that reach the registry. *)
Definition isNetwork (e : event) : bool :=
  match e with
  | EvGetImageDigest _ | EvVerifySignature _ | EvDownload _ _ => true
  | _ => false
  end.

(** Calls that change the cache directory. *)
Definition isMutation (e : event) : bool :=
  match e with
  | EvCopyFile _ | EvRemove _ | EvCreate _ => true
  | _ => false
  end.

(** Calls that write a file of the cache directory: the promotion of the
    catalog file and the creation of a digest file. *)
Definition isWrite (e : event) : bool :=
  match e with
  | EvCopyFile _ | EvCreate _ => true
  | _ => false
  end.

(** Calls the cache check makes: digest probes, globs and removals. *)
Definition isCheckEvent (e : event) : bool :=
  match e with
  | EvGetImageDigest _ | EvGlob _ | EvRemove _ => true
  | _ => false
  end.

(** ** State: the files of the machine, by path, and the trace so far *)

Record State : Type := mkState {
  fs : gmap string string;
  trace : list event
}.

Definition M (A : Type) : Type := State -> A * State.

#[global] Instance M_ret : MRet M := fun A a s => (a, s).
#[global] Instance M_bind : MBind M :=
  fun A B k m s => let '(a, s') := m s in k a s'.

Definition emit (e : event) : M unit :=
  fun s => (tt, mkState (fs s) (trace s ++ [e])).

Definition getFS : M (gmap string string) := fun s => (fs s, s).

Definition modifyFS (f : gmap string string -> gmap string string) : M unit :=
  fun s => (tt, mkState (f (fs s)) (trace s)).

Fixpoint forEach {A} (f : A -> M unit) (l : list A) : M unit :=
  match l with
  | [] => mret tt
  | x :: l' => f x ;; forEach f l'
  end.

(** ** The collaborators outside this package

    Go functions returning [(value, error)] whose value is used although
    the error is dropped return a pair here; [os.MkdirTemp] is indexed by
    the number of the call. *)
Record World : Type := {
  GetImageDigest : string -> string * string * option error;
  GetPluginInventoryMetadataImage : string -> string * option error;
  VerifyInventoryImageSignature : string -> option error;
  DownloadImageAndSaveFilesToDir : string -> error + string;
  UpdatePluginInventoryDatabase : string -> string -> error + string;
  MkdirTemp : nat -> option error;
  CopyFile : string -> option error;
  Create : string -> option error;
  Getenv : string -> string;
  SortVersions : list string -> list string * option error
}.

(** [filepath.Glob] of the digest pattern: the matching paths.  Go returns
    them sorted; they come here in the order of [map_to_list], which the
    callers see only in the order of the removals. *)
Definition Glob (dir digestPrefix : string) : M (list string) :=
  emit (EvGlob (Join dir (digestPrefix +:+ "digest.*"))) ;;
  m ← getFS ;
  mret (filter (fun p => matchDigest dir digestPrefix p = true)
               (map_to_list m).*1).

(** [os.Remove] of a regular file of the cache directory. *)
Definition osRemove (path : string) : M unit :=
  emit (EvRemove path) ;; modifyFS (delete path).

(** [os.Create]: an empty file at [path] unless the call fails. *)
Definition osCreate (w : World) (path : string) : M (option error) :=
  emit (EvCreate path) ;;
  match Create w path with
  | Some e => mret (Some e)
  | None => modifyFS (<[path := ""]>) ;; mret None
  end.

(** [strconv.ParseBool]. *)
Definition ParseBool (str : string) : bool * option error :=
  if decide (str ∈ ["1"; "t"; "T"; "true"; "TRUE"; "True"]) then (true, None)
  else if decide (str ∈ ["0"; "f"; "F"; "false"; "FALSE"; "False"]) then (false, None)
  else (false, Some (ErrExternal "invalid syntax")).

(** Constants of the packages [common], [constants] and [plugininventory]
    that this file uses and does not declare. *)
Record Constants : Type := {
  DiscoveryTypeOCI : string;
  PluginScopeStandalone : string;
  PluginStatusNotInstalled : string;
  SQliteDBFileName : string;
  ConfigVariableIncludeDeactivatedPluginsForTesting : string
}.

Section Discovery.

(** The value type of the [Artifacts] map and the plugin-group record are
    declared by other packages; nothing here looks inside them. *)
Variables (ArtifactList PluginGroup : Type).
Variable (K : Constants).
Variable (w : World).

Record PluginInventoryEntry : Type := {
  Entry_Name : string;
  Entry_Target : string;
  Entry_Description : string;
  Entry_RecommendedVersion : string;
  Entry_Artifacts : gmap string ArtifactList
}.

(** The [plugininventory.PluginInventory] interface, as far as it is
    called.  The inventory reads the database file of the cache, hence the
    file system argument. *)
Record PluginInventory : Type := {
  GetPlugins : gmap string string -> PluginInventoryFilter ->
               list PluginInventoryEntry * option error;
  GetPluginGroups : gmap string string -> PluginGroupFilter ->
                    list PluginGroup * option error
}.

Record Discovered : Type := {
  Name : string;
  Description : string;
  RecommendedVersion : string;
  InstalledVersion : string;
  SupportedVersions : list string;
  Distribution : gmap string ArtifactList;
  Optional : bool;
  Scope : string;
  Source : string;
  ContextName : string;
  DiscoveryType : string;
  Target : string;
  Status : string
}.

Record DBBackedOCIDiscovery : Type := {
  name : string;
  image : string;
  pluginCriteria : option PluginDiscoveryCriteria;
  groupCriteria : option GroupDiscoveryCriteria;
  useLocalCacheOnly : bool;
  pluginDataDir : string;
  inventory : PluginInventory
}.

Variable (od : DBBackedOCIDiscovery).

Definition getInventory : PluginInventory := inventory od.

Definition Type_ : string := DiscoveryTypeOCI K.

(** ** The cache check *)

Definition checkDigestFileExistence (hashHexVal digestPrefix : string) : M string :=
  let hashHexVal := if decide (hashHexVal = "") then "none" else hashHexVal in
  let correctHashFile :=
    Join (pluginDataDir od) (digestPrefix +:+ "digest." +:+ hashHexVal) in
  matches ← Glob (pluginDataDir od) digestPrefix ;
  if decide (1 < length matches) then
    forEach osRemove matches ;;
    mret correctHashFile
  else
    match matches with
    | [m0] =>
        if decide (m0 = correctHashFile) then mret ""
        else osRemove m0 ;; mret correctHashFile
    | _ => mret correctHashFile
    end.

Definition checkImageCache : M (string * string * option error) :=
  emit (EvGetImageDigest (image od)) ;;
  let '(_, hashHexValInventoryImage, err) := GetImageDigest w (image od) in
  match err with
  | Some e =>
      mret ("", "",
            Some (Wrapf "plugins discovery image resolution failed. Please check that the repository image URL %q is correct"
                        [image od] e))
  | None =>
      correctHashFileForInventoryImage ←
        checkDigestFileExistence hashHexValInventoryImage "" ;
      let pluginInventoryMetadataImage :=
        (GetPluginInventoryMetadataImage w (image od)).1 in
      emit (EvGetImageDigest pluginInventoryMetadataImage) ;;
      let '(_, hashHexValMetadataImage, _) :=
        GetImageDigest w pluginInventoryMetadataImage in
      correctHashFileForMetadataImage ←
        checkDigestFileExistence hashHexValMetadataImage "metadata." ;
      mret (correctHashFileForInventoryImage, correctHashFileForMetadataImage, None)
  end.

(** ** The refresh *)

(** [utils.CopyFile(inventoryDBFilePath, dst)], the source file holding
    [content].  A copy that fails is taken to leave [dst] as it was;
    nothing below depends on it. *)
Definition copyFile (content dst : string) : M (option error) :=
  emit (EvCopyFile dst) ;;
  match CopyFile w dst with
  | Some e => mret (Some e)
  | None => modifyFS (<[dst := content]>) ;; mret None
  end.

(** A temporary directory is represented by the database file the
    downloaded image saved in it. *)
Definition downloadInventoryDatabase : M (option error) :=
  emit (EvMkdirTemp 1) ;;
  match MkdirTemp w 1 with
  | Some e => mret (Some (Wrap e "unable to create temp directory"))
  | None =>
  emit (EvMkdirTemp 2) ;;
  match MkdirTemp w 2 with
  | Some e => mret (Some (Wrap e "unable to create temp directory"))
  | None =>
  r ← (emit (EvDownload (image od) 1) ;;
       match DownloadImageAndSaveFilesToDir w (image od) with
       | inl e =>
           mret (Some (Wrapf "failed to download OCI image from discovery '%s'"
                             [name od] e))
       | inr inventoryDB =>
           let pluginInventoryMetadataImage :=
             (GetPluginInventoryMetadataImage w (image od)).1 in
           let dst := Join (pluginDataDir od) (SQliteDBFileName K) in
           emit (EvDownload pluginInventoryMetadataImage 2) ;;
           match DownloadImageAndSaveFilesToDir w pluginInventoryMetadataImage with
           | inr metadataDB =>
               emit EvUpdateDatabase ;;
               match UpdatePluginInventoryDatabase w metadataDB inventoryDB with
               | inl e =>
                   mret (Some (Wrap e "error while updating inventory database based on the inventory metadata database"))
               | inr updatedDB => copyFile updatedDB dst
               end
           | inl _ => copyFile inventoryDB dst
           end
       end) ;
  (* the deferred os.RemoveAll calls, last registered first *)
  emit (EvRemoveAll 2) ;;
  emit (EvRemoveAll 1) ;;
  mret r
  end end.

(** The part of [fetchInventoryImage] that follows the cache check, run
    when at least one of the two digest files has to be created. *)
Definition refreshCache (newCacheHashFileForInventoryImage
                         newCacheHashFileForMetadataImage : string) : M (option error) :=
  emit (EvVerifySignature (image od)) ;;
  match VerifyInventoryImageSignature w (image od) with
  | Some e => mret (Some e)
  | None =>
      err ← downloadInventoryDatabase ;
      match err with
      | Some e => mret (Some e)
      | None =>
          (if decide (newCacheHashFileForInventoryImage ≠ "")
           then osCreate w newCacheHashFileForInventoryImage ;; mret tt
           else mret tt) ;;
          (if decide (newCacheHashFileForMetadataImage ≠ "")
           then osCreate w newCacheHashFileForMetadataImage ;; mret tt
           else mret tt) ;;
          mret None
      end
  end.

Definition fetchInventoryImage : M (option error) :=
  '(newCacheHashFileForInventoryImage, newCacheHashFileForMetadataImage, err) ←
    checkImageCache ;
  match err with
  | Some e => mret (Some e)
  | None =>
      if decide (newCacheHashFileForInventoryImage = ""
                 ∧ newCacheHashFileForMetadataImage = "")
      then mret None
      else refreshCache newCacheHashFileForInventoryImage
                        newCacheHashFileForMetadataImage
  end.

(** ** The query surface *)

Fixpoint mapM {A B} (f : A -> M B) (l : list A) : M (list B) :=
  match l with
  | [] => mret []
  | x :: l' => y ← f x ; ys ← mapM f l' ; mret (y :: ys)
  end.

(** One turn of the loop over [pluginEntries].  The keys of a Go map come
    in an unspecified order; they are taken here in the order of
    [map_to_list], and nothing proved below depends on it. *)
Definition discoverEntry (entry : PluginInventoryEntry) : M Discovered :=
  let versions := (map_to_list (Entry_Artifacts entry)).*1 in
  let '(versions, err) := SortVersions w versions in
  (match err with
   | Some e => emit (EvStderr (Entry_Name entry) e)
   | None => mret tt
   end) ;;
  mret {| Name := Entry_Name entry;
          Description := Entry_Description entry;
          RecommendedVersion := Entry_RecommendedVersion entry;
          InstalledVersion := "";
          SupportedVersions := versions;
          Distribution := Entry_Artifacts entry;
          Optional := false;
          Scope := PluginScopeStandalone K;
          Source := name od;
          ContextName := "";
          DiscoveryType := DiscoveryTypeOCI K;
          Target := Entry_Target entry;
          Status := PluginStatusNotInstalled K |}.

Definition pluginFilter (shouldIncludeHidden : bool) : PluginInventoryFilter :=
  match pluginCriteria od with
  | None =>
      {| Filter_Name := ""; Filter_Target := ""; Filter_Version := "";
         Filter_OS := ""; Filter_Arch := "";
         Filter_IncludeHidden := shouldIncludeHidden |}
  | Some c =>
      {| Filter_Name := Criteria_Name c; Filter_Target := Criteria_Target c;
         Filter_Version := Criteria_Version c; Filter_OS := Criteria_OS c;
         Filter_Arch := Criteria_Arch c;
         Filter_IncludeHidden := shouldIncludeHidden |}
  end.

Definition listPluginsFromInventory : M (list Discovered * option error) :=
  let shouldIncludeHidden :=
    (ParseBool (Getenv w (ConfigVariableIncludeDeactivatedPluginsForTesting K))).1 in
  let flt := pluginFilter shouldIncludeHidden in
  emit (EvGetPlugins flt) ;;
  files ← getFS ;
  let '(pluginEntries, err) := GetPlugins getInventory files flt in
  match err with
  | Some e => mret ([], Some e)
  | None =>
      discoveredPlugins ← mapM discoverEntry pluginEntries ;
      mret (discoveredPlugins, None)
  end.

Definition groupFilter (shouldIncludeHidden : bool) : PluginGroupFilter :=
  match groupCriteria od with
  | None =>
      {| GroupFilter_Vendor := ""; GroupFilter_Publisher := "";
         GroupFilter_Name := ""; GroupFilter_Version := "";
         GroupFilter_IncludeHidden := shouldIncludeHidden |}
  | Some c =>
      {| GroupFilter_Vendor := GroupCriteria_Vendor c;
         GroupFilter_Publisher := GroupCriteria_Publisher c;
         GroupFilter_Name := GroupCriteria_Name c;
         GroupFilter_Version := GroupCriteria_Version c;
         GroupFilter_IncludeHidden := shouldIncludeHidden |}
  end.

Definition listGroupsFromInventory : M (list PluginGroup * option error) :=
  let shouldIncludeHidden :=
    (ParseBool (Getenv w (ConfigVariableIncludeDeactivatedPluginsForTesting K))).1 in
  let flt := groupFilter shouldIncludeHidden in
  emit (EvGetPluginGroups flt) ;;
  files ← getFS ;
  mret (GetPluginGroups getInventory files flt).

Definition List : M (list Discovered * option error) :=
  if useLocalCacheOnly od then listPluginsFromInventory
  else
    err ← fetchInventoryImage ;
    match err with
    | Some e =>
        mret ([], Some (Wrapf "unable to fetch the inventory of discovery '%s' for plugins"
                              [name od] e))
    | None => listPluginsFromInventory
    end.

Definition GetGroups : M (list PluginGroup * option error) :=
  if useLocalCacheOnly od then listGroupsFromInventory
  else
    err ← fetchInventoryImage ;
    match err with
    | Some e =>
        mret ([], Some (Wrapf "unable to fetch the inventory of discovery '%s' for groups"
                              [name od] e))
    | None => listGroupsFromInventory
    end.

End Discovery.

Arguments Entry_Name {ArtifactList} _.
Arguments Entry_Target {ArtifactList} _.
Arguments Entry_Description {ArtifactList} _.
Arguments Entry_RecommendedVersion {ArtifactList} _.
Arguments Entry_Artifacts {ArtifactList} _.
Arguments GetPlugins {ArtifactList PluginGroup} _ _ _.
Arguments GetPluginGroups {ArtifactList PluginGroup} _ _ _.
Arguments Name {ArtifactList} _.
Arguments Description {ArtifactList} _.
Arguments RecommendedVersion {ArtifactList} _.
Arguments InstalledVersion {ArtifactList} _.
Arguments SupportedVersions {ArtifactList} _.
Arguments Distribution {ArtifactList} _.
Arguments Optional {ArtifactList} _.
Arguments Scope {ArtifactList} _.
Arguments Source {ArtifactList} _.
Arguments ContextName {ArtifactList} _.
Arguments DiscoveryType {ArtifactList} _.
Arguments Target {ArtifactList} _.
Arguments Status {ArtifactList} _.
Arguments name {ArtifactList PluginGroup} _.
Arguments image {ArtifactList PluginGroup} _.
Arguments pluginCriteria {ArtifactList PluginGroup} _.
Arguments groupCriteria {ArtifactList PluginGroup} _.
Arguments useLocalCacheOnly {ArtifactList PluginGroup} _.
Arguments pluginDataDir {ArtifactList PluginGroup} _.
Arguments inventory {ArtifactList PluginGroup} _.
Arguments getInventory {ArtifactList PluginGroup} _.
Arguments checkDigestFileExistence {ArtifactList PluginGroup} _ _ _ _.
Arguments checkImageCache {ArtifactList PluginGroup} _ _ _.
Arguments downloadInventoryDatabase {ArtifactList PluginGroup} _ _ _ _.
Arguments refreshCache {ArtifactList PluginGroup} _ _ _ _ _ _.
Arguments fetchInventoryImage {ArtifactList PluginGroup} _ _ _ _.
Arguments discoverEntry {ArtifactList PluginGroup} _ _ _ _ _.
Arguments pluginFilter {ArtifactList PluginGroup} _ _.
Arguments groupFilter {ArtifactList PluginGroup} _ _.
Arguments listPluginsFromInventory {ArtifactList PluginGroup} _ _ _ _.
Arguments listGroupsFromInventory {ArtifactList PluginGroup} _ _ _ _.
Arguments List {ArtifactList PluginGroup} _ _ _ _.
Arguments GetGroups {ArtifactList PluginGroup} _ _ _ _.

(** ** Specification vocabulary *)

(** [path] is an existing file matched by the digest pattern of
    [digestPrefix] in directory [dir]. *)
Definition isDigestFile (dir digestPrefix : string) (files : gmap string string)
    (path : string) : Prop :=
  is_Some (files !! path) ∧ matchDigest dir digestPrefix path = true.

(** The digest value a marker is named after: the sentinel when empty. *)
Definition digestOrNone (hashHexVal : string) : string :=
  if decide (hashHexVal = "") then "none" else hashHexVal.

(** The marker file the cache must hold for a probed digest. *)
Definition expectedHashFile (dir digestPrefix hashHexVal : string) : string :=
  Join dir (digestPrefix +:+ "digest." +:+ digestOrNone hashHexVal).

(** The files matched by the digest pattern, as [Glob] lists them. *)
Definition digestFiles (dir digestPrefix : string) (files : gmap string string)
    : list string :=
  filter (fun p => matchDigest dir digestPrefix p = true) (map_to_list files).*1.

(** Every path of [l] removed from [files]. *)
Definition removeAll (l : list string) (files : gmap string string)
    : gmap string string :=
  foldl (fun m p => delete p m) files l.

(** The catalog file is not named like a digest file. *)
Definition catalogNameOK (K : Constants) : Prop :=
  stripPrefix "digest." (SQliteDBFileName K) = None
  ∧ stripPrefix "metadata.digest." (SQliteDBFileName K) = None.

(** The state after [if path != "" { os.Create(path) }]. *)
Definition afterCreate (w : World) (path : string) (s : State) : State :=
  if decide (path ≠ "") then (osCreate w path s).2 else s.

(** The keys of the artifact map of an entry, as the loop collects them. *)
Definition entryVersions {ArtifactList : Type}
    (entry : PluginInventoryEntry ArtifactList) : list string :=
  (map_to_list (Entry_Artifacts entry)).*1.

(** The warning the loop writes for an entry: none unless the sort fails. *)
Definition sortWarning {ArtifactList : Type} (w : World)
    (entry : PluginInventoryEntry ArtifactList) : list event :=
  match (SortVersions w (entryVersions entry)).2 with
  | Some e => [EvStderr (Entry_Name entry) e]
  | None => []
  end.

(** The value the loop builds for an entry. *)
Definition discovered {ArtifactList PluginGroup : Type} (K : Constants) (w : World)
    (od : DBBackedOCIDiscovery ArtifactList PluginGroup)
    (entry : PluginInventoryEntry ArtifactList) : Discovered ArtifactList :=
  (discoverEntry K w od entry (mkState ∅ [])).1.

(** The filter [listPluginsFromInventory] queries the inventory with. *)
Definition queryFilter {ArtifactList PluginGroup : Type} (K : Constants) (w : World)
    (od : DBBackedOCIDiscovery ArtifactList PluginGroup) : PluginInventoryFilter :=
  pluginFilter od
    (ParseBool (Getenv w (ConfigVariableIncludeDeactivatedPluginsForTesting K))).1.

(** The filter [listGroupsFromInventory] queries the inventory with. *)
Definition queryGroupFilter {ArtifactList PluginGroup : Type} (K : Constants)
    (w : World) (od : DBBackedOCIDiscovery ArtifactList PluginGroup)
    : PluginGroupFilter :=
  groupFilter od
    (ParseBool (Getenv w (ConfigVariableIncludeDeactivatedPluginsForTesting K))).1.

(** Modelled from the spec: [utils.SortVersions] belongs to a package that
    is not part of these sources.  It sorts the slice it is given in place,
    by semantic-version precedence, and reports a version string that does
    not parse; the strings it was given are all still in the slice
    afterwards (entries that fail to parse are still included). *)
Definition SortVersionsReorders (w : World) : Prop :=
  ∀ l, (SortVersions w l).1 ≡ₚ l.


(** * Package [command]: the plugin commands

    The [RunE] functions of the [plugin] sub-commands and the two views of
    the plugin list.  The plugin manager, the feature flags, the YAML
    encoder and the table writer belong to other packages; calls to them
    are recorded, and what they return is given by a [CommandEnv]. *)

(** The package-level flag variables. *)
Record Flags : Type := {
  local : string;
  version : string;
  forceDelete : bool;
  outputFormat : string;
  targetStr : string
}.

(** [pluginmanager.DeletePluginOptions]. *)
Record DeletePluginOptions : Type := {
  Options_PluginName : string;
  Options_Target : string;
  Options_ForceDelete : bool
}.

(** A [component.OutputWriter]: its format, its keys and the rows added. *)
Record OutputWriter : Type := {
  Writer_Format : string;
  Writer_Keys : list string;
  Writer_Rows : list (list string)
}.

Definition NewOutputWriter (format : string) (headers : list string) : OutputWriter :=
  {| Writer_Format := format; Writer_Keys := headers; Writer_Rows := [] |}.

Definition AddRow (output : OutputWriter) (row : list string) : OutputWriter :=
  {| Writer_Format := Writer_Format output;
     Writer_Keys := Writer_Keys output;
     Writer_Rows := Writer_Rows output ++ [row] |}.

(** What a view writes, in order: a table rendered, a line printed, the
    heading of the standalone plugins, the heading of a context (printed
    in colour through [Sprintf]). *)
Inductive output : Type :=
| Render (table : OutputWriter)
| Println (line : string)
| StandaloneHeading
| ContextHeading (context : string).

(** Calls of the commands that the outside observes. *)
Inductive call : Type :=
| CallAvailablePlugins
| CallAvailablePluginsFromLocalSource (localPath : string)
| CallDescribePlugin (pluginName target : string)
| CallInstallPluginsFromLocalSource (pluginName version target localPath : string)
    (installTestPlugin : bool)
| CallSyncPlugins
| CallGetRecommendedVersionOfPlugin (pluginName target : string)
| CallInstallPlugin (pluginName version target : string)
| CallUpgradePlugin (pluginName version target : string)
| CallDeletePlugin (options : DeletePluginOptions)
| CallClean
| LogSuccess (format : string) (args : list string)
| Stdout (o : output).

(** Calls that reach the plugin manager. *)
Definition isPluginManagerCall (c : call) : bool :=
  match c with
  | LogSuccess _ _ | Stdout _ => false
  | _ => true
  end.

(** Calls that install, upgrade or delete a plugin. *)
Definition isLifecycleCall (c : call) : bool :=
  match c with
  | CallInstallPluginsFromLocalSource _ _ _ _ _ | CallSyncPlugins
  | CallInstallPlugin _ _ _ | CallUpgradePlugin _ _ _ | CallDeletePlugin _
  | CallClean => true
  | _ => false
  end.

Definition isLogSuccess (c : call) : bool :=
  match c with
  | LogSuccess _ _ => true
  | _ => false
  end.

Record CommandState : Type := mkCommandState {
  flags : Flags;
  calls : list call
}.

Definition CM (A : Type) : Type := CommandState -> A * CommandState.

#[global] Instance CM_ret : MRet CM := fun A a s => (a, s).
#[global] Instance CM_bind : MBind CM :=
  fun A B k m s => let '(a, s') := m s in k a s'.

Definition record (c : call) : CM unit :=
  fun s => (tt, mkCommandState (flags s) (calls s ++ [c])).

Definition getFlags : CM Flags := fun s => (flags s, s).

Definition setLocal (path : string) : CM unit :=
  fun s => (tt, mkCommandState
                  {| local := path; version := version (flags s);
                     forceDelete := forceDelete (flags s);
                     outputFormat := outputFormat (flags s);
                     targetStr := targetStr (flags s) |}
                  (calls s)).

Fixpoint forEachC {A} (f : A -> CM unit) (l : list A) : CM unit :=
  match l with
  | [] => mret tt
  | x :: l' => f x ;; forEachC f l'
  end.

(** [cobra.ExactArgs(n)]. *)
Definition ExactArgs (n : nat) (args : list string) : option error :=
  if decide (length args = n) then None
  else Some (ErrExternal "accepts a fixed number of arg(s)").

Definition invalidTarget : error :=
  ErrExternal "invalid target specified. Please specify correct value of `--target` or `-t` flag from 'kubernetes/k8s/mission-control/tmc'".

Definition missingName : error :=
  ErrExternal "must provide plugin name as positional argument".

Section Command.

Variables (ArtifactList PluginDescriptor : Type).
Variable (K : Constants).

(** What the other packages answer. *)
Record CommandEnv : Type := {
  AllPlugins : string;
  VersionLatest : string;
  FeatureContextCommand : string;
  TableOutputType : string;
  IsFeatureActivated : string -> bool;
  IsValidTarget : string -> bool;
  StringToTarget : string -> string;
  ToLower : string -> string;
  Abs : string -> string * option error;
  Marshal : PluginDescriptor -> string * option error;
  DiscoveredSorter : list (Discovered ArtifactList) -> list (Discovered ArtifactList);
  AvailablePlugins : list (Discovered ArtifactList) * option error;
  AvailablePluginsFromLocalSource :
    string -> list (Discovered ArtifactList) * option error;
  DescribePlugin : string -> string -> PluginDescriptor * option error;
  InstallPluginsFromLocalSource :
    string -> string -> string -> string -> bool -> option error;
  SyncPlugins : option error;
  GetRecommendedVersionOfPlugin : string -> string -> string * option error;
  InstallPlugin : string -> string -> string -> option error;
  UpgradePlugin : string -> string -> string -> option error;
  DeletePlugin : DeletePluginOptions -> option error;
  Clean : option error
}.

Variable (env : CommandEnv).

Definition getTarget : CM string :=
  f ← getFlags ; mret (StringToTarget env (ToLower env (targetStr f))).

Definition getInstalledElseAvailablePluginVersion (p : Discovered ArtifactList)
    : string :=
  let installedOrAvailableVersion := InstalledVersion p in
  if decide (installedOrAvailableVersion = "") then RecommendedVersion p
  else installedOrAvailableVersion.

(** The row of a plugin in the list view and in the table of the
    standalone plugins, and its row in the table of a context. *)
Definition listRow (p : Discovered ArtifactList) : list string :=
  [Name p; Description p; Scope p; Source p;
   getInstalledElseAvailablePluginVersion p; Status p].

Definition standaloneRow (p : Discovered ArtifactList) : list string :=
  [Name p; Description p; Target p; Source p;
   getInstalledElseAvailablePluginVersion p; Status p].

Definition contextRow (p : Discovered ArtifactList) : list string :=
  [Name p; Description p; Target p;
   getInstalledElseAvailablePluginVersion p; Status p].

Definition displayPluginListOutputListView
    (availablePlugins : list (Discovered ArtifactList)) : CM unit :=
  f ← getFlags ;
  let data := map listRow availablePlugins in
  let output := NewOutputWriter (outputFormat f)
                  ["Name"; "Description"; "Scope"; "Discovery"; "Version"; "Status"] in
  record (Stdout (Render (foldl AddRow output data))).

(** One turn of the loop of the split view over the plugins: the rows of
    the standalone plugins, the rows of each context and the writer of
    each context. *)
Definition splitStep (format : string)
    (acc : list (list string) * gmap string (list (list string))
           * gmap string OutputWriter)
    (p : Discovered ArtifactList)
    : list (list string) * gmap string (list (list string))
      * gmap string OutputWriter :=
  let '(dataStandalone, dataContext, outputContext) := acc in
  if decide (Scope p = PluginScopeStandalone K) then
    (dataStandalone ++ [standaloneRow p], dataContext, outputContext)
  else
    let outputContext :=
      <[ContextName p :=
          NewOutputWriter format ["Name"; "Description"; "Target"; "Version"; "Status"]]>
        outputContext in
    let data := default [] (dataContext !! ContextName p) in
    (dataStandalone, <[ContextName p := data ++ [contextRow p]]> dataContext,
     outputContext).

(** The contexts are printed in the order in which Go ranges over the
    map, which is not specified; here it is the order of [map_to_list]. *)
Definition displayPluginListOutputSplitViewContext
    (availablePlugins : list (Discovered ArtifactList)) : CM unit :=
  f ← getFlags ;
  let outputStandalone :=
    NewOutputWriter (outputFormat f)
      ["Name"; "Description"; "Target"; "Discovery"; "Version"; "Status"] in
  let '(dataStandalone, dataContext, outputContext) :=
    foldl (splitStep (outputFormat f)) ([], ∅, ∅) availablePlugins in
  record (Stdout StandaloneHeading) ;;
  record (Stdout (Render (foldl AddRow outputStandalone dataStandalone))) ;;
  forEachC (λ '(context, writer),
              record (Stdout (Println "")) ;;
              record (Stdout (ContextHeading context)) ;;
              record (Stdout (Render (foldl AddRow writer
                                        (default [] (dataContext !! context))))))
           (map_to_list outputContext).

Definition newListPluginCmd (args : list string) : CM (option error) :=
  f ← getFlags ;
  '(availablePlugins, err) ←
    (if decide (local f ≠ "") then
       let '(path, err) := Abs env (local f) in
       setLocal path ;;
       match err with
       | Some e => mret ([], Some e)
       | None =>
           record (CallAvailablePluginsFromLocalSource path) ;;
           mret (AvailablePluginsFromLocalSource env path)
       end
     else
       record CallAvailablePlugins ;; mret (AvailablePlugins env)) ;
  match err with
  | Some e => mret (Some e)
  | None =>
      let availablePlugins := DiscoveredSorter env availablePlugins in
      (if IsFeatureActivated env (FeatureContextCommand env)
          && (bool_decide (outputFormat f = "")
              || bool_decide (outputFormat f = TableOutputType env))
       then displayPluginListOutputSplitViewContext availablePlugins
       else displayPluginListOutputListView availablePlugins) ;;
      mret None
  end.

Definition newDescribePluginCmd (args : list string) : CM (option error) :=
  match args with
  | [pluginName] =>
      f ← getFlags ;
      if negb (IsValidTarget env (targetStr f)) then mret (Some invalidTarget)
      else
        target ← getTarget ;
        record (CallDescribePlugin pluginName target) ;;
        let '(pd, err) := DescribePlugin env pluginName target in
        match err with
        | Some e => mret (Some e)
        | None =>
            let '(b, err) := Marshal env pd in
            match err with
            | Some e => mret (Some (Wrap e "could not marshal plugin"))
            | None => record (Stdout (Println b)) ;; mret None
            end
        end
  | _ => mret (Some missingName)
  end.

(** The [RunE] function of [install], behind [Args: cobra.ExactArgs(1)],
    which makes [args[0]] the only argument. *)
Definition newInstallPluginCmd (args : list string) : CM (option error) :=
  match ExactArgs 1 args with
  | Some e => mret (Some e)
  | None =>
      let pluginName := default "" (args !! 0) in
      f ← getFlags ;
      if negb (IsValidTarget env (targetStr f)) then mret (Some invalidTarget)
      else if decide (local f ≠ "") then
        let '(path, err) := Abs env (local f) in
        setLocal path ;;
        match err with
        | Some e => mret (Some e)
        | None =>
            target ← getTarget ;
            record (CallInstallPluginsFromLocalSource pluginName (version f)
                      target path false) ;;
            match InstallPluginsFromLocalSource env pluginName (version f)
                    target path false with
            | Some e => mret (Some e)
            | None =>
                (if decide (pluginName = AllPlugins env)
                 then record (LogSuccess "successfully installed all plugins" [])
                 else record (LogSuccess "successfully installed '%s' plugin"
                                [pluginName])) ;;
                mret None
            end
        end
      else if decide (pluginName = AllPlugins env) then
        record CallSyncPlugins ;;
        match SyncPlugins env with
        | Some e => mret (Some e)
        | None =>
            record (LogSuccess "successfully installed all plugins" []) ;;
            mret None
        end
      else
        target ← getTarget ;
        '(pluginVersion, err) ←
          (if decide (version f = VersionLatest env) then
             record (CallGetRecommendedVersionOfPlugin pluginName target) ;;
             mret (GetRecommendedVersionOfPlugin env pluginName target)
           else mret (version f, None)) ;
        match err with
        | Some e => mret (Some e)
        | None =>
            record (CallInstallPlugin pluginName pluginVersion target) ;;
            match InstallPlugin env pluginName pluginVersion target with
            | Some e => mret (Some e)
            | None =>
                record (LogSuccess "successfully installed '%s' plugin"
                          [pluginName]) ;;
                mret None
            end
        end
  end.

Definition newUpgradePluginCmd (args : list string) : CM (option error) :=
  match args with
  | [pluginName] =>
      f ← getFlags ;
      if negb (IsValidTarget env (targetStr f)) then mret (Some invalidTarget)
      else
        target ← getTarget ;
        record (CallGetRecommendedVersionOfPlugin pluginName target) ;;
        let '(pluginVersion, err) :=
          GetRecommendedVersionOfPlugin env pluginName target in
        match err with
        | Some e => mret (Some e)
        | None =>
            record (CallUpgradePlugin pluginName pluginVersion target) ;;
            match UpgradePlugin env pluginName pluginVersion target with
            | Some e => mret (Some e)
            | None =>
                record (LogSuccess "successfully upgraded plugin '%s' to version '%s'"
                          [pluginName; pluginVersion]) ;;
                mret None
            end
        end
  | _ => mret (Some missingName)
  end.

Definition newDeletePluginCmd (args : list string) : CM (option error) :=
  match args with
  | [pluginName] =>
      f ← getFlags ;
      if negb (IsValidTarget env (targetStr f)) then mret (Some invalidTarget)
      else
        target ← getTarget ;
        let deletePluginOptions :=
          {| Options_PluginName := pluginName;
             Options_Target := target;
             Options_ForceDelete := forceDelete f |} in
        record (CallDeletePlugin deletePluginOptions) ;;
        match DeletePlugin env deletePluginOptions with
        | Some e => mret (Some e)
        | None =>
            record (LogSuccess "successfully deleted plugin '%s'" [pluginName]) ;;
            mret None
        end
  | _ => mret (Some missingName)
  end.

Definition newCleanPluginCmd (args : list string) : CM (option error) :=
  record CallClean ;;
  match Clean env with
  | Some e => mret (Some e)
  | None =>
      record (LogSuccess "successfully cleaned up all plugins" []) ;;
      mret None
  end.

Definition newSyncPluginCmd (args : list string) : CM (option error) :=
  record CallSyncPlugins ;;
  match SyncPlugins env with
  | Some e => mret (Some e)
  | None => record (LogSuccess "Done" []) ;; mret None
  end.

End Command.

Arguments AllPlugins {ArtifactList PluginDescriptor} _.
Arguments VersionLatest {ArtifactList PluginDescriptor} _.
Arguments FeatureContextCommand {ArtifactList PluginDescriptor} _.
Arguments TableOutputType {ArtifactList PluginDescriptor} _.
Arguments IsFeatureActivated {ArtifactList PluginDescriptor} _ _.
Arguments IsValidTarget {ArtifactList PluginDescriptor} _ _.
Arguments StringToTarget {ArtifactList PluginDescriptor} _ _.
Arguments ToLower {ArtifactList PluginDescriptor} _ _.
Arguments Abs {ArtifactList PluginDescriptor} _ _.
Arguments Marshal {ArtifactList PluginDescriptor} _ _.
Arguments DiscoveredSorter {ArtifactList PluginDescriptor} _ _.
Arguments AvailablePlugins {ArtifactList PluginDescriptor} _.
Arguments AvailablePluginsFromLocalSource {ArtifactList PluginDescriptor} _ _.
Arguments DescribePlugin {ArtifactList PluginDescriptor} _ _ _.
Arguments InstallPluginsFromLocalSource {ArtifactList PluginDescriptor} _ _ _ _ _ _.
Arguments SyncPlugins {ArtifactList PluginDescriptor} _.
Arguments GetRecommendedVersionOfPlugin {ArtifactList PluginDescriptor} _ _ _.
Arguments InstallPlugin {ArtifactList PluginDescriptor} _ _ _ _.
Arguments UpgradePlugin {ArtifactList PluginDescriptor} _ _ _ _.
Arguments DeletePlugin {ArtifactList PluginDescriptor} _ _.
Arguments Clean {ArtifactList PluginDescriptor} _.
Arguments getTarget {ArtifactList PluginDescriptor} _.
Arguments getInstalledElseAvailablePluginVersion {ArtifactList} _.
Arguments listRow {ArtifactList} _.
Arguments standaloneRow {ArtifactList} _.
Arguments contextRow {ArtifactList} _.
Arguments displayPluginListOutputListView {ArtifactList} _.
Arguments splitStep {ArtifactList} _ _ _ _.
Arguments displayPluginListOutputSplitViewContext {ArtifactList} _ _.
Arguments newListPluginCmd {ArtifactList PluginDescriptor} _ _ _.
Arguments newDescribePluginCmd {ArtifactList PluginDescriptor} _ _.
Arguments newInstallPluginCmd {ArtifactList PluginDescriptor} _ _.
Arguments newUpgradePluginCmd {ArtifactList PluginDescriptor} _ _.
Arguments newDeletePluginCmd {ArtifactList PluginDescriptor} _ _.
Arguments newCleanPluginCmd {ArtifactList PluginDescriptor} _ _.
Arguments newSyncPluginCmd {ArtifactList PluginDescriptor} _ _.

(** The standalone plugins of a list, and the plugins of a context, in
    the order of the list. *)
Definition standalonePlugins {ArtifactList : Type} (K : Constants)
    (plugins : list (Discovered ArtifactList)) : list (Discovered ArtifactList) :=
  filter (λ p, Scope p = PluginScopeStandalone K) plugins.

Definition contextPlugins {ArtifactList : Type} (K : Constants) (context : string)
    (plugins : list (Discovered ArtifactList)) : list (Discovered ArtifactList) :=
  filter (λ p, Scope p ≠ PluginScopeStandalone K ∧ ContextName p = context) plugins.

(** The table of a context once its rows are added. *)
Definition contextTable (format : string) (rows : list (list string)) : OutputWriter :=
  {| Writer_Format := format;
     Writer_Keys := ["Name"; "Description"; "Target"; "Version"; "Status"];
     Writer_Rows := rows |}.

(** A command logs its success last and exactly when it returns no
    error: [evs] are the calls it made and [err] is what it returned. *)
Definition successLogged (err : option error) (evs : list call) : Prop :=
  match err with
  | None => ∃ pre format args,
      evs = pre ++ [LogSuccess format args]
      ∧ Forall (λ c, isLogSuccess c = false) pre
  | Some _ => Forall (λ c, isLogSuccess c = false) evs
  end.

(** ** A concrete discovery, for running the definitions

    The artifact lists and the plugin groups are plain strings here.  The
    cache directory is [cache], the image has digest [D1], and its
    metadata image is named by appending [-metadata]. *)

Definition exampleConstants : Constants :=
  {| DiscoveryTypeOCI := "oci";
     PluginScopeStandalone := "Standalone";
     PluginStatusNotInstalled := "not installed";
     SQliteDBFileName := "plugin_inventory.db";
     ConfigVariableIncludeDeactivatedPluginsForTesting :=
       "TANZU_CLI_INCLUDE_DEACTIVATED_PLUGINS_TEST_ONLY" |}.

Definition exampleImage : string := "registry.example/plugins:latest".

Definition exampleMetadataImage : string := "registry.example/plugins-metadata:latest".

Definition clusterEntry : PluginInventoryEntry string :=
  {| Entry_Name := "cluster"; Entry_Target := "kubernetes";
     Entry_Description := "manage clusters";
     Entry_RecommendedVersion := "1.2.3";
     Entry_Artifacts := {[ "1.2.0" := "a"; "bogus" := "b"; "1.2.3" := "c" ]} |}.

Definition loginEntry : PluginInventoryEntry string :=
  {| Entry_Name := "login"; Entry_Target := "global";
     Entry_Description := "log in";
     Entry_RecommendedVersion := "0.9.0";
     Entry_Artifacts := {[ "0.9.0" := "d" ]} |}.

Definition exampleEntries : list (PluginInventoryEntry string) :=
  [clusterEntry; loginEntry].

Definition exampleInventory : PluginInventory string string :=
  {| GetPlugins := λ _ _, (exampleEntries, None);
     GetPluginGroups := λ _ _, (["vmware-tkg/default:v1.0.0"], None) |}.

Definition exampleDiscovery (localOnly : bool) : DBBackedOCIDiscovery string string :=
  {| name := "default";
     image := exampleImage;
     pluginCriteria := None;
     groupCriteria := None;
     useLocalCacheOnly := localOnly;
     pluginDataDir := "cache";
     inventory := exampleInventory |}.

(** A world around the example: the result of the base probe, of the
    overlay probe, of the verification, of the overlay download and of the
    merge are given; everything else succeeds.  The sort leaves the slice
    as it is and fails when it meets the string [bogus]. *)
Definition exampleWorld (baseProbe metaProbe : string * string * option error)
    (verify : option error) (metaDownload : error + string)
    (update : error + string) : World :=
  {| GetImageDigest := λ ref,
       if decide (ref = exampleImage) then baseProbe else metaProbe;
     GetPluginInventoryMetadataImage := λ _, (exampleMetadataImage, None);
     VerifyInventoryImageSignature := λ _, verify;
     DownloadImageAndSaveFilesToDir := λ ref,
       if decide (ref = exampleImage) then inr "base catalog" else metaDownload;
     UpdatePluginInventoryDatabase := λ _ _, update;
     MkdirTemp := λ _, None;
     CopyFile := λ _, None;
     Create := λ _, None;
     Getenv := λ _, "";
     SortVersions := λ l,
       (l, if decide ("bogus" ∈ l)
           then Some (ErrExternal "Invalid Semantic Version") else None) |}.

Definition probeD1 : string * string * option error := ("sha256", "D1", None).

Definition probeD2 : string * string * option error := ("sha256", "D2", None).

Definition probeFails : string * string * option error :=
  ("", "", Some (ErrExternal "not found")).

(** The base image resolves, is signed and downloads; there is no overlay. *)
Definition worldNoOverlay : World :=
  exampleWorld probeD1 probeFails None (inl (ErrExternal "not found"))
               (inr "unused").

(** As [worldNoOverlay], but the signature is not trusted. *)
Definition worldBadSignature : World :=
  exampleWorld probeD1 probeFails (Some (ErrExternal "signature mismatch"))
               (inl (ErrExternal "not found")) (inr "unused").

(** An overlay exists and downloads, and the merge fails. *)
Definition worldMergeFails : World :=
  exampleWorld probeD1 probeD2 None (inr "overlay")
               (inl (ErrExternal "database is locked")).

(** The overlay digest cannot be probed, yet the overlay downloads and
    merges. *)
Definition worldProbeFailsOverlayMerges : World :=
  exampleWorld probeD1 probeFails None (inr "overlay") (inr "merged catalog").

(** The base image reference does not resolve. *)
Definition worldUnresolved : World :=
  exampleWorld probeFails probeFails None (inl (ErrExternal "not found"))
               (inr "unused").

(** An overlay of digest [D2] exists, downloads and merges. *)
Definition worldOverlayMerges : World :=
  exampleWorld probeD1 probeD2 None (inr "overlay") (inr "merged catalog").

(** As [worldNoOverlay], but no image can be downloaded. *)
Definition worldDownloadFails : World :=
  {| GetImageDigest := GetImageDigest worldNoOverlay;
     GetPluginInventoryMetadataImage := GetPluginInventoryMetadataImage worldNoOverlay;
     VerifyInventoryImageSignature := VerifyInventoryImageSignature worldNoOverlay;
     DownloadImageAndSaveFilesToDir := λ _, inl (ErrExternal "connection reset");
     UpdatePluginInventoryDatabase := UpdatePluginInventoryDatabase worldNoOverlay;
     MkdirTemp := MkdirTemp worldNoOverlay;
     CopyFile := CopyFile worldNoOverlay;
     Create := Create worldNoOverlay;
     Getenv := Getenv worldNoOverlay;
     SortVersions := SortVersions worldNoOverlay |}.

(** As [worldNoOverlay], but no file can be created with [os.Create]. *)
Definition worldNoCreate : World :=
  {| GetImageDigest := GetImageDigest worldNoOverlay;
     GetPluginInventoryMetadataImage := GetPluginInventoryMetadataImage worldNoOverlay;
     VerifyInventoryImageSignature := VerifyInventoryImageSignature worldNoOverlay;
     DownloadImageAndSaveFilesToDir := DownloadImageAndSaveFilesToDir worldNoOverlay;
     UpdatePluginInventoryDatabase := UpdatePluginInventoryDatabase worldNoOverlay;
     MkdirTemp := MkdirTemp worldNoOverlay;
     CopyFile := CopyFile worldNoOverlay;
     Create := λ _, Some (ErrExternal "permission denied");
     Getenv := Getenv worldNoOverlay;
     SortVersions := SortVersions worldNoOverlay |}.

(** An empty cache directory, and one left by an earlier refresh of
    another digest. *)
Definition emptyCache : State := mkState ∅ [].

Definition staleCache : State :=
  mkState {[ "cache/digest.OLD" := ""; "cache/metadata.digest.none" := "";
             "cache/plugin_inventory.db" := "old catalog" ]} [].

(** A plugin manager for running the commands: plugin descriptors are
    plain strings, every call succeeds, and the recommended version of
    every plugin is [1.2.3]. *)
Definition exampleEnv : CommandEnv string string :=
  {| AllPlugins := "all";
     VersionLatest := "latest";
     FeatureContextCommand := "features.global.context-target-v2";
     TableOutputType := "table";
     IsFeatureActivated := λ _, true;
     IsValidTarget := λ t,
       bool_decide (t ∈ [""; "kubernetes"; "k8s"; "mission-control"; "tmc"]);
     StringToTarget := λ t, t;
     ToLower := λ t, t;
     Abs := λ p, ("/home/user/" +:+ p, None);
     Marshal := λ pd, (pd, None);
     DiscoveredSorter := λ l, l;
     AvailablePlugins := ([], None);
     AvailablePluginsFromLocalSource := λ _, ([], None);
     DescribePlugin := λ pluginName _, (pluginName, None);
     InstallPluginsFromLocalSource := λ _ _ _ _ _, None;
     SyncPlugins := None;
     GetRecommendedVersionOfPlugin := λ _ _, ("1.2.3", None);
     InstallPlugin := λ _ _ _, None;
     UpgradePlugin := λ _ _ _, None;
     DeletePlugin := λ _, None;
     Clean := None |}.

(** The flags with a given target, and nothing done yet. *)
Definition exampleCommandState (target : string) : CommandState :=
  mkCommandState
    {| local := ""; version := "latest"; forceDelete := false;
       outputFormat := ""; targetStr := target |}
    [].

(** ** Strings, paths and the glob *)

Lemma append_nil_l (s : string) : "" +:+ s = s.
Proof. reflexivity. Qed.

Lemma append_cons (a : ascii) (s t : string) :
  String a s +:+ t = String a (s +:+ t).
Proof. reflexivity. Qed.

Lemma append_assoc (a b c : string) : (a +:+ b) +:+ c = a +:+ (b +:+ c).
Proof.
  induction a as [|x a IH]; [done|].
  by rewrite !append_cons, IH.
Qed.

Lemma stripPrefix_app (p s : string) : stripPrefix p (p +:+ s) = Some s.
Proof.
  induction p as [|a p IH]; [done|].
  rewrite append_cons. simpl. by rewrite decide_True.
Qed.

Lemma stripPrefix_Some (p s r : string) :
  stripPrefix p s = Some r → s = p +:+ r.
Proof.
  revert s; induction p as [|a p IH]; intros s; simpl.
  - by intros [= ->].
  - destruct s as [|b s]; [done|].
    case_decide as Hab; [|done].
    intros Hr. rewrite (IH _ Hr), append_cons. by subst.
Qed.

Lemma stripPrefix_common (a b c : string) :
  stripPrefix (a +:+ b) (a +:+ c) = stripPrefix b c.
Proof.
  induction a as [|x a IH]; [done|].
  rewrite !append_cons. simpl. by rewrite decide_True.
Qed.

Lemma Join_nonempty (dir name0 : string) : Join dir name0 ≠ "".
Proof. unfold Join. by destruct dir. Qed.


(** The base pattern and the metadata pattern match no common path. *)
Lemma matchDigest_disjoint (dir path : string) :
  matchDigest dir "" path = true → matchDigest dir "metadata." path = true → False.
Proof.
  unfold matchDigest, Join.
  destruct (stripPrefix (dir +:+ "/" +:+ "" +:+ "digest.") path) as [r|] eqn:Hb;
    [|done].
  apply stripPrefix_Some in Hb. subst path.
  rewrite append_assoc, stripPrefix_common. by vm_compute.
Qed.

Lemma matchDigest_Join_name (dir digestPrefix name0 : string) :
  matchDigest dir digestPrefix (Join dir name0)
  = match stripPrefix (digestPrefix +:+ "digest.") name0 with
    | Some rest => negb (hasSeparator rest)
    | None => false
    end.
Proof.
  unfold matchDigest, Join.
  replace (dir +:+ "/" +:+ digestPrefix +:+ "digest.")
    with ((dir +:+ "/") +:+ digestPrefix +:+ "digest.")
    by (by rewrite append_assoc).
  replace (dir +:+ "/" +:+ name0) with ((dir +:+ "/") +:+ name0)
    by (by rewrite append_assoc).
  by rewrite stripPrefix_common.
Qed.

(** ** Files, removal and the glob *)

Lemma elem_of_digestFiles (dir digestPrefix : string) (files : gmap string string)
    (p : string) :
  p ∈ digestFiles dir digestPrefix files ↔ isDigestFile dir digestPrefix files p.
Proof.
  unfold digestFiles, isDigestFile.
  rewrite list_elem_of_filter, list_elem_of_fmap. split.
  - intros [Hm [[k v] [-> Hkv]]]. apply elem_of_map_to_list in Hkv.
    simpl in *. eauto.
  - intros [[v Hv] Hm]. split; [done|].
    exists (p, v). split; [done|]. by apply elem_of_map_to_list.
Qed.

Lemma NoDup_digestFiles (dir digestPrefix : string) (files : gmap string string) :
  NoDup (digestFiles dir digestPrefix files).
Proof. apply NoDup_filter, NoDup_fst_map_to_list. Qed.

Lemma lookup_removeAll (l : list string) (files : gmap string string) (k : string) :
  removeAll l files !! k = if decide (k ∈ l) then None else files !! k.
Proof.
  unfold removeAll. revert files.
  induction l as [|p l IH]; intros files.
  - destruct (decide (k ∈ [])) as [Hin|_]; [|done].
    by apply elem_of_nil in Hin.
  - change (foldl (λ m q, delete q m) files (p :: l))
      with (foldl (λ m q, delete q m) (delete p files) l).
    rewrite IH.
    destruct (decide (k ∈ l)) as [Hin|Hnin];
      destruct (decide (k ∈ p :: l)) as [Hin'|Hnin']; try done.
    + exfalso. apply Hnin'. by apply list_elem_of_further.
    + apply elem_of_cons in Hin' as [->|?]; [|done].
      apply lookup_delete_eq.
    + apply lookup_delete_ne. intros ->. apply Hnin', list_elem_of_here.
Qed.

Lemma NoDup_singleton_eq {A} (l : list A) (x : A) :
  NoDup l → x ∈ l → (∀ y, y ∈ l → y = x) → l = [x].
Proof.
  intros Hnd Hx Hall. destruct l as [|a [|b l]].
  - by apply elem_of_nil in Hx.
  - f_equal. apply Hall, list_elem_of_here.
  - exfalso. apply NoDup_cons in Hnd as [Hnotin _].
    apply Hnotin.
    rewrite (Hall a) by apply list_elem_of_here.
    rewrite <- (Hall b) at 1 by apply list_elem_of_further, list_elem_of_here.
    apply list_elem_of_here.
Qed.


(** ** Running the file-system primitives *)

(** Unfolds the operations of the state monad. *)
Ltac unfold_M := unfold mbind, M_bind, mret, M_ret, emit, modifyFS, getFS.

(** Brings a trace built by nested appends to the form [trace s ++ evs]. *)
Ltac norm_trace := repeat (simpl; rewrite <- app_assoc); simpl.

Lemma Glob_run (dir digestPrefix : string) (s : State) :
  Glob dir digestPrefix s
  = (digestFiles dir digestPrefix (fs s),
     mkState (fs s) (trace s ++ [EvGlob (Join dir (digestPrefix +:+ "digest.*"))])).
Proof. reflexivity. Qed.

Lemma forEach_osRemove_run (l : list string) (s : State) :
  forEach osRemove l s
  = (tt, mkState (removeAll l (fs s)) (trace s ++ map EvRemove l)).
Proof.
  revert s. induction l as [|p l IH]; intros [files tr]; simpl.
  - unfold mret, M_ret. by rewrite app_nil_r.
  - unfold mbind, M_bind, osRemove, emit, modifyFS in *. simpl.
    rewrite IH. simpl. by rewrite <- app_assoc.
Qed.

Section DiscoveryProofs.

Context {ArtifactList PluginGroup : Type}.
Variable (K : Constants).
Variable (w : World).
Variable (od : DBBackedOCIDiscovery ArtifactList PluginGroup).

Local Abbreviation dir := (pluginDataDir od).

(** ** The marker check, case by case *)

Lemma checkDigestFileExistence_run (hashHexVal digestPrefix : string) (s : State) :
  checkDigestFileExistence od hashHexVal digestPrefix s
  = let l := digestFiles dir digestPrefix (fs s) in
    let e := expectedHashFile dir digestPrefix hashHexVal in
    let tr := trace s ++ [EvGlob (Join dir (digestPrefix +:+ "digest.*"))] in
    if decide (1 < length l) then
      (e, mkState (removeAll l (fs s)) (tr ++ map EvRemove l))
    else
      match l with
      | [m0] =>
          if decide (m0 = e) then ("", mkState (fs s) tr)
          else (e, mkState (delete m0 (fs s)) (tr ++ [EvRemove m0]))
      | _ => (e, mkState (fs s) tr)
      end.
Proof.
  unfold checkDigestFileExistence.
  unfold mbind at 1. unfold M_bind. rewrite Glob_run. cbv zeta.
  fold (digestOrNone hashHexVal).
  fold (expectedHashFile dir digestPrefix hashHexVal).
  destruct (decide (1 < length (digestFiles dir digestPrefix (fs s)))) as [Hlen|Hlen].
  - unfold mbind, M_bind. rewrite forEach_osRemove_run. reflexivity.
  - destruct (digestFiles dir digestPrefix (fs s)) as [|m0 [|m1 l]]; try reflexivity.
    destruct (decide (m0 = expectedHashFile dir digestPrefix hashHexVal));
      reflexivity.
Qed.


(** ** Running the cache check *)

Local Abbreviation metaImage := ((GetPluginInventoryMetadataImage w (image od)).1).
Local Abbreviation baseHash := ((GetImageDigest w (image od)).1.2).
Local Abbreviation metaHash := ((GetImageDigest w metaImage).1.2).
Local Abbreviation dbPath := (Join dir (SQliteDBFileName K)).
Local Abbreviation resolutionFormat :=
  "plugins discovery image resolution failed. Please check that the repository image URL %q is correct".

Lemma checkImageCache_run_err (e : error) (s : State) :
  (GetImageDigest w (image od)).2 = Some e →
  checkImageCache w od s
  = ("", "", Some (Wrapf resolutionFormat [image od] e),
     mkState (fs s) (trace s ++ [EvGetImageDigest (image od)])).
Proof.
  intros He. unfold checkImageCache.
  destruct (GetImageDigest w (image od)) as [[alg h] err].
  simpl in He. subst err. reflexivity.
Qed.

Lemma checkImageCache_run_ok (s : State) :
  (GetImageDigest w (image od)).2 = None →
  let s1 := mkState (fs s) (trace s ++ [EvGetImageDigest (image od)]) in
  let rA := checkDigestFileExistence od baseHash "" s1 in
  let s2 := mkState (fs rA.2) (trace rA.2 ++ [EvGetImageDigest metaImage]) in
  let rB := checkDigestFileExistence od metaHash "metadata." s2 in
  checkImageCache w od s = (rA.1, rB.1, None, rB.2).
Proof.
  intros He. cbv zeta. unfold checkImageCache.
  destruct (GetImageDigest w (image od)) as [[alg h] err] eqn:Hb.
  simpl in He. subst err. simpl.
  unfold mbind, M_bind, emit. simpl.
  destruct (checkDigestFileExistence od h "" _) as [a sA]. simpl.
  destruct (GetImageDigest w metaImage) as [[alg' h'] err']. simpl.
  destruct (checkDigestFileExistence od h' "metadata." _) as [b sB].
  reflexivity.
Qed.

(** What the marker check leaves behind: it only globs and removes, and it
    removes nothing but files of its own pattern. *)
Lemma checkDigestFileExistence_frame (hashHexVal digestPrefix : string) (s : State) :
  let r := checkDigestFileExistence od hashHexVal digestPrefix s in
  (∃ evs, trace r.2 = trace s ++ evs ∧ Forall (λ ev, isCheckEvent ev = true) evs)
  ∧ (∀ p, matchDigest dir digestPrefix p = false → fs r.2 !! p = fs s !! p)
  ∧ (∀ p c, fs r.2 !! p = Some c → fs s !! p = Some c).
Proof.
  cbv zeta. rewrite checkDigestFileExistence_run. cbv zeta.
  pose proof (elem_of_digestFiles dir digestPrefix (fs s)) as Hel.
  set (l := digestFiles dir digestPrefix (fs s)) in *.
  assert (Hev : ∀ l' : list string,
             Forall (λ ev, isCheckEvent ev = true) (map EvRemove l')).
  { intros l'. apply Forall_forall. intros ev [p [-> _]]%list_elem_of_fmap. done. }
  destruct (decide (1 < length l)) as [Hlen|Hlen]; simpl.
  - split; [|split].
    + eexists. rewrite <- app_assoc. split; [done|].
      apply Forall_cons; split; [done | apply Hev].
    + intros p Hp. rewrite lookup_removeAll.
      rewrite decide_False; [done|]. rewrite Hel. intros [_ Hm]. congruence.
    + intros p c. rewrite lookup_removeAll. by case_decide.
  - destruct l as [|m0 [|m1 l']] eqn:Hl; simpl.
    + split; [|done]. eexists; split; [done|]. by apply Forall_singleton.
    + destruct (decide (m0 = expectedHashFile dir digestPrefix hashHexVal)); simpl.
      * split; [|done]. eexists; split; [done|]. by apply Forall_singleton.
      * split; [|split].
        -- eexists. rewrite <- app_assoc. split; [done|].
           apply Forall_cons; split; [done | apply (Hev [m0])].
        -- intros p Hp. apply lookup_delete_ne. intros <-.
           assert (isDigestFile dir digestPrefix (fs s) m0) as [_ Hm].
           { apply Hel. apply list_elem_of_here. }
           congruence.
        -- intros p c Hpc. destruct (decide (m0 = p)) as [->|Hne].
           ++ by rewrite lookup_delete_eq in Hpc.
           ++ by rewrite lookup_delete_ne in Hpc.
    + simpl in Hlen. lia.
Qed.

Lemma checkImageCache_frame (s : State) :
  let r := checkImageCache w od s in
  (∃ evs, trace r.2 = trace s ++ evs ∧ Forall (λ ev, isCheckEvent ev = true) evs)
  ∧ (∀ p, matchDigest dir "" p = false → matchDigest dir "metadata." p = false →
          fs r.2 !! p = fs s !! p)
  ∧ (∀ p c, fs r.2 !! p = Some c → fs s !! p = Some c).
Proof.
  cbv zeta.
  destruct ((GetImageDigest w (image od)).2) as [e|] eqn:He.
  - rewrite (checkImageCache_run_err e) by done. simpl.
    split; [|done]. eexists; split; [done|]. by apply Forall_singleton.
  - rewrite checkImageCache_run_ok by done. cbv zeta. simpl.
    set (s1 := mkState (fs s) (trace s ++ [EvGetImageDigest (image od)])).
    pose proof (checkDigestFileExistence_frame baseHash "" s1) as HA.
    cbv zeta in HA. destruct HA as ((evA & HtA & HfA) & HframeA & HsubA).
    set (rA := checkDigestFileExistence od baseHash "" s1) in *.
    set (s2 := mkState (fs rA.2) (trace rA.2 ++ [EvGetImageDigest metaImage])).
    pose proof (checkDigestFileExistence_frame metaHash "metadata." s2) as HB.
    cbv zeta in HB. destruct HB as ((evB & HtB & HfB) & HframeB & HsubB).
    set (rB := checkDigestFileExistence od metaHash "metadata." s2) in *.
    split; [|split].
    + exists ([EvGetImageDigest (image od)] ++ evA
              ++ [EvGetImageDigest metaImage] ++ evB).
      split.
      * rewrite HtB. simpl. rewrite HtA. simpl. by rewrite <- !app_assoc.
      * apply Forall_app; split; [by apply Forall_singleton|].
        apply Forall_app; split; [done|].
        apply Forall_app; split; [by apply Forall_singleton | done].
    + intros p Hp1 Hp2. rewrite HframeB by done. simpl. by rewrite HframeA.
    + intros p c Hc. apply HsubB in Hc. simpl in Hc. by apply HsubA in Hc.
Qed.

(** ** Running the refresh *)

Lemma fetchInventoryImage_unfold (s : State) :
  fetchInventoryImage K w od s
  = let r := checkImageCache w od s in
    match r.1.2 with
    | Some e => (Some e, r.2)
    | None =>
        if decide (r.1.1.1 = "" ∧ r.1.1.2 = "") then (None, r.2)
        else refreshCache K w od r.1.1.1 r.1.1.2 r.2
    end.
Proof.
  unfold fetchInventoryImage. unfold mbind at 1. unfold M_bind.
  destruct (checkImageCache w od s) as [[[a b] err] s0]. simpl.
  destruct err; [done|]. by case_decide.
Qed.

Lemma refreshCache_run_verify_err (a b : string) (e : error) (s : State) :
  VerifyInventoryImageSignature w (image od) = Some e →
  refreshCache K w od a b s
  = (Some e, mkState (fs s) (trace s ++ [EvVerifySignature (image od)])).
Proof. intros He. unfold refreshCache. rewrite He. reflexivity. Qed.

Lemma refreshCache_run_download_err (a b : string) (e : error) (s : State) :
  VerifyInventoryImageSignature w (image od) = None →
  let s1 := mkState (fs s) (trace s ++ [EvVerifySignature (image od)]) in
  (downloadInventoryDatabase K w od s1).1 = Some e →
  refreshCache K w od a b s = (Some e, (downloadInventoryDatabase K w od s1).2).
Proof.
  intros Hv s1 Hd. unfold refreshCache. rewrite Hv.
  unfold mbind, M_bind, emit. fold s1.
  destruct (downloadInventoryDatabase K w od s1) as [err s2].
  simpl in Hd. by subst err.
Qed.

(** Every refresh starts by verifying the signature. *)
Lemma refreshCache_trace_head (a b : string) (s : State) :
  ∃ evs, trace (refreshCache K w od a b s).2
         = trace s ++ EvVerifySignature (image od) :: evs.
Proof.
  unfold refreshCache, downloadInventoryDatabase, copyFile, osCreate.
  unfold_M. simpl.
  repeat (case_match; simpl in *; simplify_eq);
    norm_trace; eexists; reflexivity.
Qed.

Lemma downloadInventoryDatabase_run_merge_err
    (inventoryDB metadataDB : string) (e : error) (s : State) :
  MkdirTemp w 1 = None → MkdirTemp w 2 = None →
  DownloadImageAndSaveFilesToDir w (image od) = inr inventoryDB →
  DownloadImageAndSaveFilesToDir w metaImage = inr metadataDB →
  UpdatePluginInventoryDatabase w metadataDB inventoryDB = inl e →
  downloadInventoryDatabase K w od s
  = (Some (Wrap e "error while updating inventory database based on the inventory metadata database"),
     mkState (fs s)
       (trace s ++ [EvMkdirTemp 1; EvMkdirTemp 2; EvDownload (image od) 1;
                    EvDownload metaImage 2; EvUpdateDatabase;
                    EvRemoveAll 2; EvRemoveAll 1])).
Proof.
  intros H1 H2 Hb Hm Hu. unfold downloadInventoryDatabase.
  rewrite H1, H2. unfold mbind, M_bind, emit. simpl.
  rewrite Hb. simpl. rewrite Hm. simpl. rewrite Hu. simpl.
  unfold mret, M_ret. by rewrite <- !app_assoc.
Qed.

Lemma downloadInventoryDatabase_run_no_overlay
    (inventoryDB : string) (e : error) (s : State) :
  MkdirTemp w 1 = None → MkdirTemp w 2 = None →
  DownloadImageAndSaveFilesToDir w (image od) = inr inventoryDB →
  DownloadImageAndSaveFilesToDir w metaImage = inl e →
  downloadInventoryDatabase K w od s
  = (CopyFile w dbPath,
     mkState (match CopyFile w dbPath with
              | Some _ => fs s
              | None => <[dbPath := inventoryDB]> (fs s)
              end)
       (trace s ++ [EvMkdirTemp 1; EvMkdirTemp 2; EvDownload (image od) 1;
                    EvDownload metaImage 2; EvCopyFile dbPath;
                    EvRemoveAll 2; EvRemoveAll 1])).
Proof.
  intros H1 H2 Hb Hm. unfold downloadInventoryDatabase.
  rewrite H1, H2. unfold mbind, M_bind, emit. simpl.
  rewrite Hb. simpl. rewrite Hm. simpl.
  unfold copyFile. unfold_M. simpl.
  destruct (CopyFile w dbPath); simpl; by rewrite <- !app_assoc.
Qed.

(** A download that reports success has written the catalog file and
    nothing else. *)
Lemma downloadInventoryDatabase_success (s : State) :
  (downloadInventoryDatabase K w od s).1 = None →
  ∃ c, fs (downloadInventoryDatabase K w od s).2 = <[dbPath := c]> (fs s).
Proof.
  unfold downloadInventoryDatabase, copyFile.
  unfold_M. simpl.
  repeat (case_match; simpl in *; simplify_eq); intros; simplify_eq;
    eexists; reflexivity.
Qed.

(** ** Failure of the base digest probe *)

(** C4.  When the digest probe of the base image reference fails,
    [checkImageCache] returns an error that carries the image reference,
    [fetchInventoryImage] returns that error, and the only call made is
    the probe itself: no file of the cache is deleted, created or
    replaced. *)
Theorem base_probe_failure_aborts (e : error) (s : State) :
  (GetImageDigest w (image od)).2 = Some e →
  let c := checkImageCache w od s in
  let r := fetchInventoryImage K w od s in
  (∃ err, c.1 = ("", "", Some err) ∧ r.1 = Some err ∧ image od ∈ errorArgs err)
  ∧ fs c.2 = fs s
  ∧ fs r.2 = fs s
  ∧ trace r.2 = trace s ++ [EvGetImageDigest (image od)].
Proof.
  intros He. cbv zeta.
  rewrite fetchInventoryImage_unfold. cbv zeta.
  rewrite (checkImageCache_run_err e) by done. simpl.
  split; [|done].
  eexists. split; [done|]. split; [done|]. apply list_elem_of_here.
Qed.

(** ** Failure of the signature verification *)

(** C6.  In a refresh that is triggered (the cache check succeeded and
    returned at least one non-empty marker path) the first call after the
    check is the verification of the base image signature, so it precedes
    every download; and when the verification fails, the refresh returns
    that error, nothing is downloaded, no file is created, and the cache
    directory stays as it was when the refresh was triggered.  Compared to
    the state before the check, no file was created or replaced and every
    file that is not a digest file (the catalog file among them) is
    unchanged. *)
Theorem signature_verified_before_download (s : State) :
  let c := checkImageCache w od s in
  let r := fetchInventoryImage K w od s in
  c.1.2 = None →
  ¬ (c.1.1.1 = "" ∧ c.1.1.2 = "") →
  (∃ pre post,
      trace r.2 = trace s ++ pre ++ EvVerifySignature (image od) :: post
      ∧ Forall (λ ev, isCheckEvent ev = true) pre)
  ∧ (∀ e, VerifyInventoryImageSignature w (image od) = Some e →
       r.1 = Some e
       ∧ fs r.2 = fs c.2
       ∧ (∀ p x, fs r.2 !! p = Some x → fs s !! p = Some x)
       ∧ (∀ p, matchDigest dir "" p = false →
               matchDigest dir "metadata." p = false →
               fs r.2 !! p = fs s !! p)
       ∧ ∃ pre, trace r.2 = trace s ++ pre ++ [EvVerifySignature (image od)]
                ∧ Forall (λ ev, isCheckEvent ev = true) pre).
Proof.
  cbv zeta. intros Herr Htrig.
  rewrite fetchInventoryImage_unfold. cbv zeta.
  rewrite Herr, decide_False by done.
  destruct (checkImageCache_frame s) as ((pre & Hpre & Hcheck) & Hframe & Hsub).
  split.
  - destruct (refreshCache_trace_head (checkImageCache w od s).1.1.1
                (checkImageCache w od s).1.1.2 (checkImageCache w od s).2)
      as [post Hpost].
    exists pre, post. split; [|done].
    rewrite Hpost, Hpre. by rewrite <- app_assoc.
  - intros e He. rewrite (refreshCache_run_verify_err _ _ e) by done. simpl.
    split; [done|]. split; [done|]. split; [done|]. split; [done|].
    exists pre. split; [|done]. rewrite Hpre. by rewrite <- app_assoc.
Qed.

(** ** Failure of the overlay merge *)

(** C2, as the code has it.  When the refresh is triggered, the overlay
    image is downloaded and the merge fails, [fetchInventoryImage] returns
    the merge error; the cache directory is as the cache check left it;
    nothing was created or replaced, so every file still there is
    identical to what it was before the call; every file that is not a
    digest file (the catalog file among them) is unchanged; and neither a
    copy to the cache nor a creation of a digest file was attempted. *)
Theorem merge_failure_leaves_cache_as_checked
    (inventoryDB metadataDB : string) (e : error) (s : State) :
  let c := checkImageCache w od s in
  let r := fetchInventoryImage K w od s in
  c.1.2 = None →
  ¬ (c.1.1.1 = "" ∧ c.1.1.2 = "") →
  VerifyInventoryImageSignature w (image od) = None →
  MkdirTemp w 1 = None → MkdirTemp w 2 = None →
  DownloadImageAndSaveFilesToDir w (image od) = inr inventoryDB →
  DownloadImageAndSaveFilesToDir w metaImage = inr metadataDB →
  UpdatePluginInventoryDatabase w metadataDB inventoryDB = inl e →
  r.1 = Some (Wrap e "error while updating inventory database based on the inventory metadata database")
  ∧ fs r.2 = fs c.2
  ∧ (∀ p x, fs r.2 !! p = Some x → fs s !! p = Some x)
  ∧ (∀ p, matchDigest dir "" p = false → matchDigest dir "metadata." p = false →
          fs r.2 !! p = fs s !! p)
  ∧ ∃ evs, trace r.2 = trace s ++ evs ∧ Forall (λ ev, isWrite ev = false) evs.
Proof.
  cbv zeta. intros Herr Htrig Hv H1 H2 Hb Hm Hu.
  rewrite fetchInventoryImage_unfold. cbv zeta.
  rewrite Herr, decide_False by done.
  destruct (checkImageCache_frame s) as ((pre & Hpre & Hcheck) & Hframe & Hsub).
  erewrite refreshCache_run_download_err; [|done|];
    rewrite (downloadInventoryDatabase_run_merge_err inventoryDB metadataDB e)
      by done; [|done].
  simpl. split; [done|]. split; [done|]. split; [done|]. split; [done|].
  eexists. rewrite Hpre, <- !app_assoc. split; [done|].
  apply Forall_app. split.
  - eapply Forall_impl; [exact Hcheck|]. by intros [] ?.
  - by repeat constructor.
Qed.

(** ** What the marker check establishes *)

(** After the check no file of the pattern other than the expected one is
    left; the answer is the empty string only when the expected file is
    there, and then nothing was touched. *)
Lemma checkDigestFileExistence_post (hashHexVal digestPrefix : string) (s : State) :
  let r := checkDigestFileExistence od hashHexVal digestPrefix s in
  let e := expectedHashFile dir digestPrefix hashHexVal in
  (r.1 = "" ∨ r.1 = e)
  ∧ (r.1 = "" → fs r.2 = fs s ∧ is_Some (fs s !! e))
  ∧ (∀ p, isDigestFile dir digestPrefix (fs r.2) p → p = e).
Proof.
  cbv zeta. rewrite checkDigestFileExistence_run. cbv zeta.
  pose proof (elem_of_digestFiles dir digestPrefix (fs s)) as Hel.
  pose proof (Join_nonempty dir
                (digestPrefix +:+ "digest." +:+ digestOrNone hashHexVal)) as Hne.
  fold (expectedHashFile dir digestPrefix hashHexVal) in Hne.
  set (e := expectedHashFile dir digestPrefix hashHexVal) in *.
  set (l := digestFiles dir digestPrefix (fs s)) in *.
  destruct (decide (1 < length l)) as [Hlen|Hlen]; simpl.
  - split; [by right|]. split; [done|].
    intros p [[x Hx] Hm]. exfalso.
    rewrite lookup_removeAll in Hx.
    destruct (decide (p ∈ l)) as [?|Hnin]; [done|].
    apply Hnin, Hel. split; [by eexists | done].
  - destruct l as [|m0 [|m1 l']] eqn:Hl; simpl.
    + split; [by right|]. split; [done|].
      intros p Hp%Hel. by apply elem_of_nil in Hp.
    + destruct (decide (m0 = e)) as [->|Hm0]; simpl.
      * split; [by left|]. split.
        -- intros _. split; [done|].
           assert (isDigestFile dir digestPrefix (fs s) e) as [He _]; [|done].
           apply Hel, list_elem_of_here.
        -- intros p Hp%Hel. by apply list_elem_of_singleton in Hp.
      * split; [by right|]. split; [done|].
        intros p [[x Hx] Hm]. exfalso.
        destruct (decide (m0 = p)) as [->|Hneq].
        -- by rewrite lookup_delete_eq in Hx.
        -- rewrite lookup_delete_ne in Hx by done.
           assert (p ∈ [m0]) as Hin%list_elem_of_singleton;
             [|by subst].
           apply Hel. split; [by eexists | done].
    + simpl in Hlen. lia.
Qed.

(** When the cache holds the expected file and no other of the pattern,
    the check answers with the empty string and changes nothing. *)
Lemma checkDigestFileExistence_current (hashHexVal digestPrefix : string) (s : State) :
  let e := expectedHashFile dir digestPrefix hashHexVal in
  isDigestFile dir digestPrefix (fs s) e →
  (∀ p, isDigestFile dir digestPrefix (fs s) p → p = e) →
  checkDigestFileExistence od hashHexVal digestPrefix s
  = ("", mkState (fs s)
           (trace s ++ [EvGlob (Join dir (digestPrefix +:+ "digest.*"))])).
Proof.
  intros e He Honly. rewrite checkDigestFileExistence_run. cbv zeta.
  fold e.
  assert (digestFiles dir digestPrefix (fs s) = [e]) as ->.
  { apply NoDup_singleton_eq.
    - apply NoDup_digestFiles.
    - by apply elem_of_digestFiles.
    - intros y Hy. by apply Honly, elem_of_digestFiles. }
  rewrite decide_False by (simpl; lia). by rewrite decide_True.
Qed.

(** ** The creation of the digest files *)

Lemma afterCreate_trace (path : string) (s : State) :
  trace (afterCreate w path s)
  = trace s ++ (if decide (path ≠ "") then [EvCreate path] else []).
Proof.
  unfold afterCreate, osCreate. unfold_M.
  case_decide; simpl; [|by rewrite app_nil_r].
  by destruct (Create w path).
Qed.

Lemma afterCreate_fs (path : string) (s : State) :
  fs (afterCreate w path s)
  = if decide (path ≠ "") then
      match Create w path with
      | Some _ => fs s
      | None => <[path := ""]> (fs s)
      end
    else fs s.
Proof.
  unfold afterCreate, osCreate. unfold_M.
  case_decide; simpl; [|done].
  by destruct (Create w path).
Qed.

Lemma refreshCache_run_ok (a b : string) (s : State) :
  VerifyInventoryImageSignature w (image od) = None →
  let s1 := mkState (fs s) (trace s ++ [EvVerifySignature (image od)]) in
  (downloadInventoryDatabase K w od s1).1 = None →
  refreshCache K w od a b s
  = (None, afterCreate w b (afterCreate w a (downloadInventoryDatabase K w od s1).2)).
Proof.
  intros Hv s1 Hd. unfold refreshCache. rewrite Hv.
  unfold mbind, M_bind, emit. fold s1.
  destruct (downloadInventoryDatabase K w od s1) as [err s2].
  simpl in Hd. subst err. simpl. unfold afterCreate.
  destruct (decide (a ≠ "")); simpl.
  - destruct (osCreate w a s2) as [oa sa]. simpl.
    destruct (decide (b ≠ "")); simpl; [|done].
    by destruct (osCreate w b sa).
  - unfold mret at 1. unfold M_ret at 1.
    destruct (decide (b ≠ "")); simpl; [|done].
    by destruct (osCreate w b s2).
Qed.

Lemma Join_inj (d a b : string) : Join d a = Join d b → a = b.
Proof.
  unfold Join. intros H. apply String.app_inj in H.
  by apply String.app_inj in H.
Qed.

Lemma expectedHashFile_ne_dbPath (digestPrefix hashHexVal : string) :
  stripPrefix (digestPrefix +:+ "digest.") (SQliteDBFileName K) = None →
  expectedHashFile dir digestPrefix hashHexVal ≠ dbPath.
Proof.
  intros Hnone Heq. unfold expectedHashFile in Heq.
  apply Join_inj in Heq. rewrite <- Heq in Hnone.
  rewrite <- append_assoc, stripPrefix_app in Hnone. done.
Qed.

Lemma dbPath_not_digest (digestPrefix : string) :
  stripPrefix (digestPrefix +:+ "digest.") (SQliteDBFileName K) = None →
  matchDigest dir digestPrefix dbPath = false.
Proof. intros Hnone. by rewrite matchDigest_Join_name, Hnone. Qed.

(** ** Absence of the overlay *)

(** C5.  Absence of the overlay is not an error.  Whatever the digest
    probe of the overlay image returns, and so also when it fails,
    [checkImageCache] succeeds as soon as the base probe does, and an
    empty overlay digest is tracked under the sentinel [none].  When the
    download of the overlay image fails in a triggered refresh whose
    verification and base download succeed, the merge is not called and
    the refresh goes on to the promotion: its result is the result of the
    copy, and after a successful copy the catalog file of the cache is the
    downloaded base content, byte for byte.  The promotion of the base
    content as it is rests on the failure of the download, not of the
    probe: the download is attempted whatever the probe returned. *)
Theorem overlay_absence_is_not_an_error (s : State) :
  let c := checkImageCache w od s in
  let r := fetchInventoryImage K w od s in
  ((GetImageDigest w (image od)).2 = None →
     c.1.2 = None
     ∧ (metaHash = "" →
        c.1.1.2 = "" ∨ c.1.1.2 = Join dir "metadata.digest.none"))
  ∧ (∀ inventoryDB e,
       c.1.2 = None →
       ¬ (c.1.1.1 = "" ∧ c.1.1.2 = "") →
       VerifyInventoryImageSignature w (image od) = None →
       MkdirTemp w 1 = None → MkdirTemp w 2 = None →
       DownloadImageAndSaveFilesToDir w (image od) = inr inventoryDB →
       DownloadImageAndSaveFilesToDir w metaImage = inl e →
       r.1 = CopyFile w dbPath
       ∧ (∃ evs, trace r.2 = trace s ++ evs
                 ∧ Forall (λ ev, ev ≠ EvUpdateDatabase) evs)
       ∧ (CopyFile w dbPath = None → catalogNameOK K →
          fs r.2 !! dbPath = Some inventoryDB)).
Proof.
  cbv zeta. split.
  - intros Hb. rewrite checkImageCache_run_ok by done. cbv zeta. simpl.
    split; [done|]. intros Hempty.
    match goal with
    | |- context [checkDigestFileExistence od metaHash "metadata." ?st] =>
        destruct (checkDigestFileExistence_post metaHash "metadata." st)
          as ([Hr|Hr] & _)
    end; [by left | right].
    rewrite Hr, Hempty. reflexivity.
  - intros inventoryDB e Herr Htrig Hv H1 H2 Hb Hm.
    rewrite fetchInventoryImage_unfold. cbv zeta.
    rewrite Herr, decide_False by done.
    destruct (checkImageCache_frame s) as ((pre & Hpre & Hcheck) & _).
    pose proof (checkImageCache_run_ok s) as Hrun.
    set (c := checkImageCache w od s) in *.
    set (s1 := mkState (fs c.2) (trace c.2 ++ [EvVerifySignature (image od)])).
    pose proof (downloadInventoryDatabase_run_no_overlay inventoryDB e s1
                  H1 H2 Hb Hm) as Hd.
    assert (Hpre' : Forall (λ ev, ev ≠ EvUpdateDatabase) pre).
    { eapply Forall_impl; [exact Hcheck|]. by intros [] ?. }
    destruct (CopyFile w dbPath) as [ce|] eqn:Hcopy.
    + erewrite refreshCache_run_download_err; [|done|]; fold s1;
        rewrite Hd; [|done].
      simpl. split; [done|]. split; [|done].
      eexists. rewrite Hpre, <- !app_assoc. split; [done|].
      apply Forall_app. split; [done|]. by repeat constructor.
    + rewrite refreshCache_run_ok; [|done|]; fold s1; rewrite Hd; [|done].
      simpl. split; [done|]. split.
      * rewrite !afterCreate_trace. simpl.
        eexists. rewrite Hpre, <- !app_assoc. split; [done|].
        apply Forall_app. split; [done|].
        repeat (apply Forall_cons; split; [done|]).
        apply Forall_app. split; case_decide; by repeat constructor.
      * intros _ [Hn1 Hn2].
        assert (Hca : c.1.1.1 ≠ dbPath).
        { destruct (GetImageDigest w (image od)) as [[alg h] err] eqn:Hg.
          destruct err as [e0|].
          - subst c. rewrite (checkImageCache_run_err e0) in Herr
              by (by rewrite Hg). done.
          - subst c. rewrite Hrun by done. cbv zeta. simpl.
            match goal with
            | |- context [checkDigestFileExistence od ?h "" ?st] =>
                destruct (checkDigestFileExistence_post h "" st)
                  as ([Hr|Hr] & _)
            end; rewrite Hr.
            + intros Heq. symmetry in Heq. by apply Join_nonempty in Heq.
            + by apply expectedHashFile_ne_dbPath. }
        assert (Hcb : c.1.1.2 ≠ dbPath).
        { destruct (GetImageDigest w (image od)) as [[alg h] err] eqn:Hg.
          destruct err as [e0|].
          - subst c. rewrite (checkImageCache_run_err e0) in Herr
              by (by rewrite Hg). done.
          - subst c. rewrite Hrun by done. cbv zeta. simpl.
            match goal with
            | |- context [checkDigestFileExistence od ?h "metadata." ?st] =>
                destruct (checkDigestFileExistence_post h "metadata." st)
                  as ([Hr|Hr] & _)
            end; rewrite Hr.
            + intros Heq. symmetry in Heq. by apply Join_nonempty in Heq.
            + by apply expectedHashFile_ne_dbPath. }
        rewrite !afterCreate_fs. simpl.
        repeat case_decide; repeat case_match;
          rewrite ?lookup_insert_ne by done; by rewrite lookup_insert_eq.
Qed.

(** ** The cache after a successful refresh *)







Lemma matchDigest_base_not_metadata (p : string) :
  matchDigest dir "" p = true → matchDigest dir "metadata." p = false.
Proof.
  intros Hb. destruct (matchDigest dir "metadata." p) eqn:Hm; [|done].
  exfalso. by eapply matchDigest_disjoint.
Qed.



(** ** Idempotence of the refresh check *)


(** ** Running the queries *)

Lemma discoverEntry_run (entry : PluginInventoryEntry ArtifactList) (s : State) :
  discoverEntry K w od entry s
  = (discovered K w od entry,
     mkState (fs s) (trace s ++ sortWarning w entry)).
Proof.
  unfold discovered, sortWarning, discoverEntry, entryVersions.
  destruct (SortVersions w _) as [versions [e|]]; simpl.
  - reflexivity.
  - unfold mbind, M_bind, mret, M_ret. simpl. rewrite app_nil_r.
    by destruct s.
Qed.

Lemma mapM_discoverEntry_run (l : list (PluginInventoryEntry ArtifactList))
    (s : State) :
  mapM (discoverEntry K w od) l s
  = (map (discovered K w od) l,
     mkState (fs s) (trace s ++ concat (map (sortWarning w) l))).
Proof.
  revert s. induction l as [|entry l IH]; intros [files tr]; simpl.
  - unfold mret, M_ret. by rewrite app_nil_r.
  - unfold mbind at 1. unfold M_bind at 1. rewrite discoverEntry_run.
    unfold mbind at 1. unfold M_bind at 1. rewrite IH. simpl.
    unfold mret, M_ret. by rewrite <- app_assoc.
Qed.

Lemma listPluginsFromInventory_run (s : State) :
  let flt := queryFilter K w od in
  let q := GetPlugins (inventory od) (fs s) flt in
  listPluginsFromInventory K w od s
  = match q.2 with
    | Some e => ([], Some e, mkState (fs s) (trace s ++ [EvGetPlugins flt]))
    | None =>
        (map (discovered K w od) q.1, None,
         mkState (fs s)
           (trace s ++ EvGetPlugins flt :: concat (map (sortWarning w) q.1)))
    end.
Proof.
  cbv zeta. unfold listPluginsFromInventory, queryFilter, getInventory.
  unfold mbind at 1. unfold M_bind at 1. unfold emit at 1.
  unfold mbind at 1. unfold M_bind at 1. unfold getFS at 1. simpl.
  destruct (GetPlugins (inventory od) (fs s) _) as [entries [e|]]; simpl.
  - reflexivity.
  - unfold mbind, M_bind. rewrite mapM_discoverEntry_run. simpl.
    unfold mret, M_ret. by rewrite <- app_assoc.
Qed.

Lemma listGroupsFromInventory_run (s : State) :
  let flt := queryGroupFilter K w od in
  listGroupsFromInventory K w od s
  = (GetPluginGroups (inventory od) (fs s) flt,
     mkState (fs s) (trace s ++ [EvGetPluginGroups flt])).
Proof. reflexivity. Qed.

Lemma sortWarning_quiet (l : list (PluginInventoryEntry ArtifactList)) :
  Forall (λ ev, isNetwork ev = false ∧ isMutation ev = false)
         (concat (map (sortWarning w) l)).
Proof.
  induction l as [|entry l IH]; simpl; [constructor|].
  apply Forall_app. split; [|done].
  unfold sortWarning. destruct (SortVersions w _).2; by repeat constructor.
Qed.

(** ** The fields of a discovered plugin *)

(** C7.  Every [Discovered] value that [listPluginsFromInventory], and so
    [List], returns has its source set to the name of the discovery and
    its discovery type to the OCI tag, and has no installed version, no
    context, and the not-installed status. *)
Theorem discovered_provenance_and_runtime_fields (s : State) :
  let fixed := λ d : Discovered ArtifactList,
    Source d = name od
    ∧ DiscoveryType d = DiscoveryTypeOCI K
    ∧ InstalledVersion d = ""
    ∧ ContextName d = ""
    ∧ Status d = PluginStatusNotInstalled K in
  Forall fixed (listPluginsFromInventory K w od s).1.1
  ∧ Forall fixed (List K w od s).1.1.
Proof.
  intros fixed.
  assert (Hall : ∀ s', Forall fixed (listPluginsFromInventory K w od s').1.1).
  { intros s'. rewrite listPluginsFromInventory_run. cbv zeta.
    destruct (GetPlugins _ _ _).2; simpl; [constructor|].
    apply Forall_forall. intros d [entry [-> _]]%list_elem_of_fmap.
    unfold fixed, discovered, discoverEntry.
    destruct (SortVersions w _) as [versions [e|]]; simpl; done. }
  split; [apply Hall|].
  unfold List. destruct (useLocalCacheOnly od); [apply Hall|].
  unfold mbind, M_bind.
  destruct (fetchInventoryImage K w od s) as [[e|] s0]; [constructor|].
  apply Hall.
Qed.

(** ** One result per entry *)

(** C10.  When [GetPlugins] returns an error, [listPluginsFromInventory]
    returns that error and no result.  Otherwise it returns no error and
    one [Discovered] value per entry, in the order of the entries, each
    carrying the name, description, recommended version, target and
    artifacts of its entry. *)
Theorem listPluginsFromInventory_one_per_entry (s : State) :
  let q := GetPlugins (inventory od) (fs s) (queryFilter K w od) in
  let r := listPluginsFromInventory K w od s in
  match q.2 with
  | Some e => r.1 = ([], Some e)
  | None =>
      r.1.2 = None
      ∧ length r.1.1 = length q.1
      ∧ Forall2 (λ entry d,
                   Name d = Entry_Name entry
                   ∧ Description d = Entry_Description entry
                   ∧ RecommendedVersion d = Entry_RecommendedVersion entry
                   ∧ Target d = Entry_Target entry
                   ∧ Distribution d = Entry_Artifacts entry)
                q.1 r.1.1
  end.
Proof.
  cbv zeta. rewrite listPluginsFromInventory_run. cbv zeta.
  destruct (GetPlugins _ _ _) as [entries [e|]]; simpl; [done|].
  split; [done|]. split; [by rewrite length_map|].
  induction entries as [|entry l IH]; simpl; constructor; [|done].
  unfold discovered, discoverEntry.
  destruct (SortVersions w _) as [versions [e|]]; simpl; done.
Qed.

(** ** Queries on the local cache only *)

(** C8.  With [useLocalCacheOnly] set, [List] is
    [listPluginsFromInventory] and [GetGroups] is
    [listGroupsFromInventory], run on the state as it is: the inventory is
    queried on the files of the cache as they are, no file changes, and no
    call reaches the registry or writes to the cache (no digest probe, no
    signature verification, no download, no removal, creation or copy). *)
Theorem local_cache_only_skips_refresh (s : State) :
  useLocalCacheOnly od = true →
  let quiet := λ ev, isNetwork ev = false ∧ isMutation ev = false
                     ∧ isCheckEvent ev = false in
  (List K w od s = listPluginsFromInventory K w od s
   ∧ fs (List K w od s).2 = fs s
   ∧ ∃ evs, trace (List K w od s).2
            = trace s ++ EvGetPlugins (queryFilter K w od) :: evs
            ∧ Forall quiet evs)
  ∧ (GetGroups K w od s = listGroupsFromInventory K w od s
     ∧ (GetGroups K w od s).1
       = GetPluginGroups (inventory od) (fs s) (queryGroupFilter K w od)
     ∧ fs (GetGroups K w od s).2 = fs s
     ∧ trace (GetGroups K w od s).2
       = trace s ++ [EvGetPluginGroups (queryGroupFilter K w od)]).
Proof.
  intros Hlocal quiet. unfold List, GetGroups. rewrite Hlocal.
  split.
  - split; [done|]. rewrite listPluginsFromInventory_run. cbv zeta.
    destruct (GetPlugins _ _ _) as [entries [e|]]; simpl.
    + split; [done|]. exists []. split; [done | constructor].
    + split; [done|]. eexists. split; [done|].
      induction entries as [|entry l IH]; simpl; [constructor|].
      apply Forall_app. split; [|done].
      unfold sortWarning. destruct (SortVersions w _).2; by repeat constructor.
  - rewrite listGroupsFromInventory_run. done.
Qed.

(** ** Versions that do not parse *)

(** C9.  For every entry that the inventory returns, the supported
    versions of its [Discovered] value are what [SortVersions] leaves of
    the keys of the artifact map.  An error of the sort is written to the
    standard error stream with the name of the plugin and is not returned:
    the query reports no error and the entry has its result.  As the sort
    only reorders the slice, the supported versions are exactly the keys
    of the artifact map, the ones that do not parse included. *)
Theorem version_parse_failure_is_not_fatal (s : State) :
  SortVersionsReorders w →
  let q := GetPlugins (inventory od) (fs s) (queryFilter K w od) in
  let r := listPluginsFromInventory K w od s in
  q.2 = None →
  r.1.2 = None
  ∧ Forall2 (λ entry d,
               Name d = Entry_Name entry
               ∧ SupportedVersions d = (SortVersions w (entryVersions entry)).1
               ∧ (∀ v, v ∈ SupportedVersions d
                       ↔ is_Some (Entry_Artifacts entry !! v))
               ∧ length (SupportedVersions d) = size (Entry_Artifacts entry))
            q.1 r.1.1
  ∧ (∀ entry e, entry ∈ q.1 →
       (SortVersions w (entryVersions entry)).2 = Some e →
       EvStderr (Entry_Name entry) e ∈ trace r.2).
Proof.
  intros Hperm q r Hq. subst q r.
  rewrite listPluginsFromInventory_run. cbv zeta. rewrite Hq. simpl.
  split; [done|]. split.
  - generalize ((GetPlugins (inventory od) (fs s) (queryFilter K w od)).1).
    intros entries.
    induction entries as [|entry l IH]; simpl; constructor; [|done].
    assert (Hsv : SupportedVersions (discovered K w od entry)
                  = (SortVersions w (entryVersions entry)).1).
    { unfold discovered, discoverEntry, entryVersions.
      destruct (SortVersions w _) as [versions [e|]]; simpl; done. }
    assert (Hname : Name (discovered K w od entry) = Entry_Name entry).
    { unfold discovered, discoverEntry.
      destruct (SortVersions w _) as [versions [e|]]; simpl; done. }
    split; [done|]. split; [done|]. rewrite Hsv.
    pose proof (Hperm (entryVersions entry)) as Hp.
    split.
    + intros v. rewrite Hp. unfold entryVersions.
      rewrite list_elem_of_fmap. split.
      * intros [[k x] [-> Hkx%elem_of_map_to_list]]. by eexists.
      * intros [x Hx]. exists (v, x). split; [done|].
        by apply elem_of_map_to_list.
    + rewrite Hp. unfold entryVersions.
      by rewrite length_fmap, length_map_to_list.
  - intros entry e Hin He.
    apply elem_of_app. right. apply list_elem_of_further.
    apply list_elem_of_In, in_concat.
    exists (sortWarning w entry). split.
    + apply in_map. by apply list_elem_of_In.
    + unfold sortWarning. rewrite He. by left.
Qed.

(** ** One marker per prefix, and the overlay tracked on its own *)



End DiscoveryProofs.

(** ** The theorems at the concrete discovery *)

(** C4 at an image reference that does not resolve: the error names the
    reference and the empty cache stays empty. *)
Lemma base_probe_failure_aborts_witness :
  let r := fetchInventoryImage exampleConstants worldUnresolved
             (exampleDiscovery false) emptyCache in
  (GetImageDigest worldUnresolved exampleImage).2 = Some (ErrExternal "not found")
  ∧ (∃ err, r.1 = Some err ∧ exampleImage ∈ errorArgs err)
  ∧ fs r.2 = ∅
  ∧ trace r.2 = [EvGetImageDigest exampleImage].
Proof.
  cbv zeta.
  destruct (base_probe_failure_aborts exampleConstants worldUnresolved
              (exampleDiscovery false) (ErrExternal "not found") emptyCache
              eq_refl)
    as ((err & _ & Hr & Hin) & _ & Hfs & Htr).
  split; [reflexivity|]. split; [by exists err|]. split; [exact Hfs | exact Htr].
Defined.

(** C6 at an untrusted signature over a stale cache: the verification is
    the first call after the check and the last call made. *)
Lemma signature_verified_before_download_witness :
  let c := checkImageCache worldBadSignature (exampleDiscovery false) staleCache in
  let r := fetchInventoryImage exampleConstants worldBadSignature
             (exampleDiscovery false) staleCache in
  c.1 = ("cache/digest.D1", "", None)
  ∧ r.1 = Some (ErrExternal "signature mismatch")
  ∧ fs r.2 = fs c.2
  ∧ (∃ pre, trace r.2 = pre ++ [EvVerifySignature exampleImage]
            ∧ Forall (λ ev, isCheckEvent ev = true) pre).
Proof.
  cbv zeta.
  destruct (signature_verified_before_download exampleConstants worldBadSignature
              (exampleDiscovery false) staleCache eq_refl
              ltac:(vm_compute; intros [? ?]; discriminate))
    as (_ & Hfail).
  destruct (Hfail (ErrExternal "signature mismatch") eq_refl)
    as (Hr & Hfs & _ & _ & pre & Htr & Hpre).
  split; [reflexivity|]. split; [exact Hr|]. split; [exact Hfs|].
  exists pre. split; [exact Htr | exact Hpre].
Defined.

(** C2 at a failing merge over a stale cache: the merge error is returned
    and the old catalog file is still there. *)
Lemma merge_failure_leaves_cache_as_checked_witness :
  let r := fetchInventoryImage exampleConstants worldMergeFails
             (exampleDiscovery false) staleCache in
  r.1 = Some (Wrap (ErrExternal "database is locked")
                "error while updating inventory database based on the inventory metadata database")
  ∧ fs r.2 !! "cache/plugin_inventory.db" = Some "old catalog"
  ∧ (∃ evs, trace r.2 = evs ∧ Forall (λ ev, isWrite ev = false) evs).
Proof.
  cbv zeta.
  destruct (merge_failure_leaves_cache_as_checked exampleConstants worldMergeFails
              (exampleDiscovery false) "base catalog" "overlay"
              (ErrExternal "database is locked") staleCache eq_refl
              ltac:(vm_compute; intros [? ?]; discriminate)
              eq_refl eq_refl eq_refl eq_refl eq_refl eq_refl)
    as (Hr & _ & _ & Hframe & evs & Htr & Hev).
  split; [exact Hr|]. split.
  - rewrite Hframe by reflexivity. reflexivity.
  - exists evs. split; [exact Htr | exact Hev].
Defined.

(** C2 does not hold as the specification words it: with stale digest
    files in the cache, an overlay that downloads and a merge that fails,
    [fetchInventoryImage] returns the merge error, and the digest files
    that were in the cache before the call are gone after it. *)
Lemma merge_failure_removes_stale_markers :
  let r := fetchInventoryImage exampleConstants worldMergeFails
             (exampleDiscovery false) staleCache in
  DownloadImageAndSaveFilesToDir worldMergeFails exampleMetadataImage = inr "overlay"
  ∧ UpdatePluginInventoryDatabase worldMergeFails "overlay" "base catalog"
    = inl (ErrExternal "database is locked")
  ∧ r.1 = Some (Wrap (ErrExternal "database is locked")
                  "error while updating inventory database based on the inventory metadata database")
  ∧ EvUpdateDatabase ∈ trace r.2
  ∧ fs staleCache !! "cache/digest.OLD" = Some ""
  ∧ fs r.2 !! "cache/digest.OLD" = None
  ∧ fs staleCache !! "cache/metadata.digest.none" = Some ""
  ∧ fs r.2 !! "cache/metadata.digest.none" = None
  ∧ (fs r.2 = fs staleCache → False).
Proof.
  cbv zeta. repeat split; try reflexivity.
  - vm_compute. repeat (first [apply list_elem_of_here | apply list_elem_of_further]).
  - intros Heq.
    assert (H : fs (fetchInventoryImage exampleConstants worldMergeFails
                      (exampleDiscovery false) staleCache).2 !! "cache/digest.OLD"
                = fs staleCache !! "cache/digest.OLD") by (by rewrite Heq).
    vm_compute in H. discriminate.
Qed.



(** C5 at a repository without overlay: the overlay probe and the overlay
    download both fail, the check and the refresh succeed, and the cache
    holds the base catalog as it was downloaded. *)
Lemma overlay_absence_is_not_an_error_witness :
  let od := exampleDiscovery false in
  let c := checkImageCache worldNoOverlay od emptyCache in
  let r := fetchInventoryImage exampleConstants worldNoOverlay od emptyCache in
  (GetImageDigest worldNoOverlay exampleMetadataImage).2
  = Some (ErrExternal "not found")
  ∧ DownloadImageAndSaveFilesToDir worldNoOverlay exampleMetadataImage
    = inl (ErrExternal "not found")
  ∧ c.1.2 = None
  ∧ (c.1.1.2 = "" ∨ c.1.1.2 = "cache/metadata.digest.none")
  ∧ r.1 = None
  ∧ fs r.2 !! "cache/plugin_inventory.db" = Some "base catalog".
Proof.
  cbv zeta.
  destruct (overlay_absence_is_not_an_error exampleConstants worldNoOverlay
              (exampleDiscovery false) emptyCache) as [Hprobe Hdownload].
  destruct (Hprobe eq_refl) as [Hok Hnone].
  destruct (Hdownload "base catalog" (ErrExternal "not found") eq_refl
              ltac:(vm_compute; intros [? ?]; discriminate)
              eq_refl eq_refl eq_refl eq_refl eq_refl)
    as (Hr & _ & Hcat).
  split; [reflexivity|]. split; [reflexivity|]. split; [exact Hok|].
  split; [exact (Hnone eq_refl)|]. split; [exact Hr|].
  exact (Hcat eq_refl (conj eq_refl eq_refl)).
Defined.

(** C5 does not hold as the specification words it for a failing probe.
    The download of the overlay is attempted whatever the probe of its
    digest returned: when the probe fails and the download succeeds, the
    check tracks the overlay under the sentinel [none], the refresh
    returns no error, the overlay is merged, and the catalog promoted to
    the cache is the merged one, not the base content as downloaded. *)
Lemma overlay_probe_failure_promotes_merged_catalog :
  let od := exampleDiscovery false in
  let c := checkImageCache worldProbeFailsOverlayMerges od emptyCache in
  let r := fetchInventoryImage exampleConstants worldProbeFailsOverlayMerges
             od emptyCache in
  (GetImageDigest worldProbeFailsOverlayMerges exampleMetadataImage).2
  = Some (ErrExternal "not found")
  ∧ c.1 = ("cache/digest.D1", "cache/metadata.digest.none", None)
  ∧ DownloadImageAndSaveFilesToDir worldProbeFailsOverlayMerges exampleImage
    = inr "base catalog"
  ∧ DownloadImageAndSaveFilesToDir worldProbeFailsOverlayMerges exampleMetadataImage
    = inr "overlay"
  ∧ r.1 = None
  ∧ EvUpdateDatabase ∈ trace r.2
  ∧ fs r.2 !! "cache/plugin_inventory.db" = Some "merged catalog"
  ∧ fs r.2 !! "cache/metadata.digest.none" = Some ""
  ∧ (fs r.2 !! "cache/plugin_inventory.db" = Some "base catalog" → False).
Proof.
  cbv zeta. repeat split; try reflexivity.
  - vm_compute. repeat (first [apply list_elem_of_here | apply list_elem_of_further]).
  - intros H. vm_compute in H. discriminate.
Qed.

(** C8 at a discovery that uses the local cache only: one query, nothing
    else. *)
Lemma local_cache_only_skips_refresh_witness :
  let od := exampleDiscovery true in
  useLocalCacheOnly od = true
  ∧ fs (List exampleConstants worldNoOverlay od staleCache).2 = fs staleCache
  ∧ fs (GetGroups exampleConstants worldNoOverlay od staleCache).2 = fs staleCache
  ∧ trace (GetGroups exampleConstants worldNoOverlay od staleCache).2
    = [EvGetPluginGroups (queryGroupFilter exampleConstants worldNoOverlay od)].
Proof.
  cbv zeta.
  destruct (local_cache_only_skips_refresh exampleConstants worldNoOverlay
              (exampleDiscovery true) staleCache eq_refl)
    as ((_ & Hfs & _) & (_ & _ & Hgfs & Hgtr)).
  split; [reflexivity|]. split; [exact Hfs|]. split; [exact Hgfs | exact Hgtr].
Defined.

(** C9 at an artifact map with a key that is no version: the query
    succeeds and the failure is on the standard error stream. *)
Lemma version_parse_failure_is_not_fatal_witness :
  let od := exampleDiscovery true in
  let r := listPluginsFromInventory exampleConstants worldNoOverlay od emptyCache in
  SortVersionsReorders worldNoOverlay
  ∧ r.1.2 = None
  ∧ length r.1.1 = 2
  ∧ EvStderr "cluster" (ErrExternal "Invalid Semantic Version") ∈ trace r.2.
Proof.
  cbv zeta.
  assert (Hperm : SortVersionsReorders worldNoOverlay)
    by (intros l; reflexivity).
  destruct (version_parse_failure_is_not_fatal exampleConstants worldNoOverlay
              (exampleDiscovery true) emptyCache Hperm eq_refl)
    as (Hok & Hall & Hwarn).
  split; [exact Hperm|]. split; [exact Hok|]. split.
  - rewrite <- (Forall2_length _ _ _ Hall). reflexivity.
  - refine (Hwarn clusterEntry (ErrExternal "Invalid Semantic Version") _ eq_refl).
    apply list_elem_of_here.
Defined.

(** ** The definitions at work *)

Example checkDigestFileExistence_stale :
  let r := checkDigestFileExistence (exampleDiscovery false) "D1" "" staleCache in
  r.1 = "cache/digest.D1"
  ∧ map_to_list (fs r.2)
    = [("cache/metadata.digest.none", ""); ("cache/plugin_inventory.db", "old catalog")].
Proof. cbv zeta. split; reflexivity. Qed.

Example checkDigestFileExistence_sentinel :
  let r := checkDigestFileExistence (exampleDiscovery false) "" "metadata." staleCache in
  r.1 = "" ∧ fs r.2 = fs staleCache.
Proof. cbv zeta. split; reflexivity. Qed.

Example checkDigestFileExistence_too_many :
  let s := mkState {[ "cache/digest.A" := ""; "cache/digest.B" := "";
                      "cache/metadata.digest.none" := "" ]} [] in
  let r := checkDigestFileExistence (exampleDiscovery false) "A" "" s in
  r.1 = "cache/digest.A"
  ∧ map_to_list (fs r.2) = [("cache/metadata.digest.none", "")].
Proof. cbv zeta. split; reflexivity. Qed.

Example fetchInventoryImage_fresh_install :
  let r := fetchInventoryImage exampleConstants worldNoOverlay
             (exampleDiscovery false) emptyCache in
  r.1 = None
  ∧ fs r.2 = {[ "cache/digest.D1" := ""; "cache/metadata.digest.none" := "";
                "cache/plugin_inventory.db" := "base catalog" ]}.
Proof. cbv zeta. split; reflexivity. Qed.

Example List_local_cache :
  let r := List exampleConstants worldNoOverlay (exampleDiscovery true) emptyCache in
  map Name r.1.1 = ["cluster"; "login"]
  ∧ map Source r.1.1 = ["default"; "default"]
  ∧ map Status r.1.1 = ["not installed"; "not installed"]
  ∧ r.1.2 = None.
Proof. cbv zeta. repeat split; reflexivity. Qed.



(** * More of the refresh: every exit path *)

Section RefreshPaths.

Context {ArtifactList PluginGroup : Type}.
Variable (K : Constants).
Variable (w : World).
Variable (od : DBBackedOCIDiscovery ArtifactList PluginGroup).

Local Abbreviation dir := (pluginDataDir od).
Local Abbreviation metaImage := ((GetPluginInventoryMetadataImage w (image od)).1).
Local Abbreviation baseHash := ((GetImageDigest w (image od)).1.2).
Local Abbreviation metaHash := ((GetImageDigest w metaImage).1.2).
Local Abbreviation dbPath := (Join dir (SQliteDBFileName K)).

(** What a run of [downloadInventoryDatabase] can do to the cache: it
    creates and removes no file of the cache, and it writes the catalog
    file exactly when it reports success, after a copy that succeeded. *)
Lemma downloadInventoryDatabase_outcome (s : State) :
  let d := downloadInventoryDatabase K w od s in
  ∃ evs, trace d.2 = trace s ++ evs
    ∧ Forall (λ ev, isCheckEvent ev = false ∧ ∀ p, ev ≠ EvCreate p) evs
    ∧ ((d.1 = None ∧ CopyFile w dbPath = None ∧ EvCopyFile dbPath ∈ evs
        ∧ ∃ c, fs d.2 = <[dbPath := c]> (fs s))
       ∨ (d.1 ≠ None ∧ fs d.2 = fs s ∧ ∀ p, EvCopyFile p ∈ evs → CopyFile w p ≠ None)).
Proof.
  cbv zeta. unfold downloadInventoryDatabase, copyFile. unfold_M. simpl.
  repeat (case_match; simpl in *; simplify_eq); norm_trace;
    (eexists; split; [reflexivity|]; split;
     [ repeat constructor; done
     | first
         [ left; split; [done|]; split; [done|]; split;
           [ repeat (first [apply list_elem_of_here | apply list_elem_of_further])
           | eexists; reflexivity ]
         | right; split; [done|]; split; [done|];
           intros p Hp;
           repeat (apply elem_of_cons in Hp as [Hp|Hp]; [simplify_eq; try congruence|]);
           by apply elem_of_nil in Hp ] ]).
Qed.

(** The answer of the marker check tells what is in the cache afterwards:
    an empty answer means that the expected file is there as a digest
    file, any other answer that no file of the pattern is left. *)
Lemma checkDigestFileExistence_answer (hashHexVal digestPrefix : string) (s : State) :
  let r := checkDigestFileExistence od hashHexVal digestPrefix s in
  let e := expectedHashFile dir digestPrefix hashHexVal in
  (r.1 = "" → isDigestFile dir digestPrefix (fs r.2) e)
  ∧ (r.1 ≠ "" → ∀ p, ¬ isDigestFile dir digestPrefix (fs r.2) p).
Proof.
  cbv zeta. rewrite checkDigestFileExistence_run. cbv zeta.
  pose proof (elem_of_digestFiles dir digestPrefix (fs s)) as Hel.
  pose proof (Join_nonempty dir
                (digestPrefix +:+ "digest." +:+ digestOrNone hashHexVal)) as Hne.
  fold (expectedHashFile dir digestPrefix hashHexVal) in Hne.
  set (e := expectedHashFile dir digestPrefix hashHexVal) in *.
  set (l := digestFiles dir digestPrefix (fs s)) in *.
  destruct (decide (1 < length l)) as [Hlen|Hlen]; simpl.
  - split; [done|]. intros _ p [[x Hx] Hm].
    rewrite lookup_removeAll in Hx.
    destruct (decide (p ∈ l)) as [?|Hnin]; [done|].
    apply Hnin, Hel. split; [by eexists | done].
  - destruct l as [|m0 [|m1 l']] eqn:Hl; simpl.
    + split; [done|]. intros _ p Hp%Hel. by apply elem_of_nil in Hp.
    + destruct (decide (m0 = e)) as [->|Hm0]; simpl.
      * split; [|done]. intros _. apply Hel, list_elem_of_here.
      * split; [done|]. intros _ p [[x Hx] Hm].
        destruct (decide (m0 = p)) as [->|Hneq].
        -- by rewrite lookup_delete_eq in Hx.
        -- rewrite lookup_delete_ne in Hx by done.
           assert (p ∈ [m0]) as Hin%list_elem_of_singleton; [|by subst].
           apply Hel. split; [by eexists | done].
    + simpl in Hlen. lia.
Qed.

Lemma fetchInventoryImage_triggered (s : State) :
  let c := checkImageCache w od s in
  c.1.2 = None →
  ¬ (c.1.1.1 = "" ∧ c.1.1.2 = "") →
  fetchInventoryImage K w od s = refreshCache K w od c.1.1.1 c.1.1.2 c.2.
Proof.
  cbv zeta. intros Herr Htrig. rewrite fetchInventoryImage_unfold. cbv zeta.
  by rewrite Herr, decide_False.
Qed.

(** The two paths the check returns: each is empty or the expected digest
    file of its prefix. *)
Lemma checkImageCache_paths (s : State) :
  let c := checkImageCache w od s in
  (c.1.1.1 = "" ∨ c.1.1.1 = expectedHashFile dir "" baseHash)
  ∧ (c.1.1.2 = "" ∨ c.1.1.2 = expectedHashFile dir "metadata." metaHash).
Proof.
  cbv zeta. destruct ((GetImageDigest w (image od)).2) as [e|] eqn:Hg.
  - rewrite (checkImageCache_run_err w od e) by done. simpl. auto.
  - rewrite checkImageCache_run_ok by done. cbv zeta. simpl. split.
    + match goal with
      | |- context [checkDigestFileExistence od baseHash "" ?st] =>
          destruct (checkDigestFileExistence_post od baseHash "" st) as (H & _)
      end. exact H.
    + match goal with
      | |- context [checkDigestFileExistence od metaHash "metadata." ?st] =>
          destruct (checkDigestFileExistence_post od metaHash "metadata." st)
            as (H & _)
      end. exact H.
Qed.

Lemma checkImageCache_paths_ne_dbPath (s : State) :
  let c := checkImageCache w od s in
  catalogNameOK K → c.1.1.1 ≠ dbPath ∧ c.1.1.2 ≠ dbPath.
Proof.
  cbv zeta. intros [Hn1 Hn2].
  destruct (checkImageCache_paths s) as [[-> | ->] [-> | ->]];
    repeat split;
    first [ by apply expectedHashFile_ne_dbPath
          | intros Heq; symmetry in Heq; by apply Join_nonempty in Heq ].
Qed.

(** ** What the cache check may touch *)


(** The check of one prefix leaves the digest files of the other prefix
    alone: the pattern [digest.*] matches no [metadata.digest.*] file, and
    the other way round. *)
Theorem marker_checks_do_not_interfere (hashHexVal : string) (s : State) :
  (∀ p, matchDigest dir "metadata." p = true →
        fs (checkDigestFileExistence od hashHexVal "" s).2 !! p = fs s !! p)
  ∧ (∀ p, matchDigest dir "" p = true →
          fs (checkDigestFileExistence od hashHexVal "metadata." s).2 !! p
          = fs s !! p).
Proof.
  split; intros p Hp.
  - destruct (checkDigestFileExistence_frame od hashHexVal "" s) as (_ & Hframe & _).
    apply Hframe. destruct (matchDigest dir "" p) eqn:Hb; [|done].
    exfalso. by eapply matchDigest_disjoint.
  - destruct (checkDigestFileExistence_frame od hashHexVal "metadata." s)
      as (_ & Hframe & _).
    apply Hframe. by apply matchDigest_base_not_metadata.
Qed.

(** ** A current cache is reused without verification *)


(** ** Temporary directories *)

(** [downloadInventoryDatabase] and its two temporary directories.  When
    the first cannot be created the function returns the wrapped error
    and does nothing else.  When the first is created and the second is
    not, it returns the wrapped error, nothing is downloaded, and the
    first directory is not removed (its removal is deferred only once
    both exist).  When both are created, the last two calls of the
    function, on every path, are the removal of the second directory and
    then of the first. *)
Theorem temp_directories_released (s : State) :
  let d := downloadInventoryDatabase K w od s in
  (∀ e, MkdirTemp w 1 = Some e →
        d = (Some (Wrap e "unable to create temp directory"),
             mkState (fs s) (trace s ++ [EvMkdirTemp 1])))
  ∧ (∀ e, MkdirTemp w 1 = None → MkdirTemp w 2 = Some e →
          d = (Some (Wrap e "unable to create temp directory"),
               mkState (fs s) (trace s ++ [EvMkdirTemp 1; EvMkdirTemp 2])))
  ∧ (MkdirTemp w 1 = None → MkdirTemp w 2 = None →
     ∃ evs, trace d.2 = trace s ++ [EvMkdirTemp 1; EvMkdirTemp 2] ++ evs
                        ++ [EvRemoveAll 2; EvRemoveAll 1]
            ∧ Forall (λ ev, ∀ n, ev ≠ EvMkdirTemp n ∧ ev ≠ EvRemoveAll n) evs).
Proof.
  cbv zeta. split; [|split].
  - intros e H1. unfold downloadInventoryDatabase. rewrite H1. reflexivity.
  - intros e H1 H2. unfold downloadInventoryDatabase. rewrite H1, H2.
    unfold_M. simpl. by rewrite <- app_assoc.
  - intros H1 H2. unfold downloadInventoryDatabase, copyFile.
    rewrite H1, H2. unfold_M. simpl.
    repeat (case_match; simpl in *; simplify_eq); norm_trace.
    + exists [EvDownload (image od) 1]. split; [done | by repeat constructor].
    + exists [EvDownload (image od) 1; EvDownload metaImage 2; EvCopyFile dbPath].
      split; [done | by repeat constructor].
    + exists [EvDownload (image od) 1; EvDownload metaImage 2; EvCopyFile dbPath].
      split; [done | by repeat constructor].
    + exists [EvDownload (image od) 1; EvDownload metaImage 2; EvUpdateDatabase].
      split; [done | by repeat constructor].
    + exists [EvDownload (image od) 1; EvDownload metaImage 2; EvUpdateDatabase;
              EvCopyFile dbPath].
      split; [done | by repeat constructor].
    + exists [EvDownload (image od) 1; EvDownload metaImage 2; EvUpdateDatabase;
              EvCopyFile dbPath].
      split; [done | by repeat constructor].
Qed.

(** ** Failure of the base download *)

Lemma downloadInventoryDatabase_run_base_err (e : error) (s : State) :
  MkdirTemp w 1 = None → MkdirTemp w 2 = None →
  DownloadImageAndSaveFilesToDir w (image od) = inl e →
  downloadInventoryDatabase K w od s
  = (Some (Wrapf "failed to download OCI image from discovery '%s'" [name od] e),
     mkState (fs s)
       (trace s ++ [EvMkdirTemp 1; EvMkdirTemp 2; EvDownload (image od) 1;
                    EvRemoveAll 2; EvRemoveAll 1])).
Proof.
  intros H1 H2 Hb. unfold downloadInventoryDatabase.
  rewrite H1, H2. unfold_M. simpl. rewrite Hb. simpl.
  by rewrite <- !app_assoc.
Qed.

(** When the download of the base image fails in a triggered refresh,
    [fetchInventoryImage] returns the error wrapped with the name of the
    discovery; the overlay is not downloaded, nothing is merged, copied
    or created, both temporary directories are removed, and the cache
    directory stays as it was when the refresh was triggered. *)
Theorem base_download_failure_aborts (e : error) (s : State) :
  let c := checkImageCache w od s in
  let r := fetchInventoryImage K w od s in
  c.1.2 = None →
  ¬ (c.1.1.1 = "" ∧ c.1.1.2 = "") →
  VerifyInventoryImageSignature w (image od) = None →
  MkdirTemp w 1 = None → MkdirTemp w 2 = None →
  DownloadImageAndSaveFilesToDir w (image od) = inl e →
  r.1 = Some (Wrapf "failed to download OCI image from discovery '%s'" [name od] e)
  ∧ fs r.2 = fs c.2
  ∧ trace r.2
    = trace c.2 ++ [EvVerifySignature (image od); EvMkdirTemp 1; EvMkdirTemp 2;
                    EvDownload (image od) 1; EvRemoveAll 2; EvRemoveAll 1].
Proof.
  cbv zeta. intros Herr Htrig Hv H1 H2 Hb.
  rewrite fetchInventoryImage_triggered by done.
  erewrite refreshCache_run_download_err; [|done|];
    rewrite (downloadInventoryDatabase_run_base_err e) by done; [|done].
  simpl. split; [done|]. split; [done|]. by rewrite <- app_assoc.
Qed.

(** ** A refresh with an overlay *)

Lemma downloadInventoryDatabase_run_merged
    (inventoryDB metadataDB updatedDB : string) (s : State) :
  MkdirTemp w 1 = None → MkdirTemp w 2 = None →
  DownloadImageAndSaveFilesToDir w (image od) = inr inventoryDB →
  DownloadImageAndSaveFilesToDir w metaImage = inr metadataDB →
  UpdatePluginInventoryDatabase w metadataDB inventoryDB = inr updatedDB →
  downloadInventoryDatabase K w od s
  = (CopyFile w dbPath,
     mkState (match CopyFile w dbPath with
              | Some _ => fs s
              | None => <[dbPath := updatedDB]> (fs s)
              end)
       (trace s ++ [EvMkdirTemp 1; EvMkdirTemp 2; EvDownload (image od) 1;
                    EvDownload metaImage 2; EvUpdateDatabase; EvCopyFile dbPath;
                    EvRemoveAll 2; EvRemoveAll 1])).
Proof.
  intros H1 H2 Hb Hm Hu. unfold downloadInventoryDatabase.
  rewrite H1, H2. unfold_M. simpl.
  rewrite Hb. simpl. rewrite Hm. simpl. rewrite Hu. simpl.
  unfold copyFile. unfold_M. simpl.
  destruct (CopyFile w dbPath); simpl; by rewrite <- !app_assoc.
Qed.

(** When both images download and the merge succeeds in a triggered
    refresh, what is promoted to the cache is the merged database, not
    the one that was downloaded: [fetchInventoryImage] returns no error,
    the catalog file holds the result of the merge, and the merge comes
    after both downloads and before the copy. *)
Theorem overlay_is_merged_before_promotion
    (inventoryDB metadataDB updatedDB : string) (s : State) :
  let c := checkImageCache w od s in
  let r := fetchInventoryImage K w od s in
  c.1.2 = None →
  ¬ (c.1.1.1 = "" ∧ c.1.1.2 = "") →
  VerifyInventoryImageSignature w (image od) = None →
  MkdirTemp w 1 = None → MkdirTemp w 2 = None →
  DownloadImageAndSaveFilesToDir w (image od) = inr inventoryDB →
  DownloadImageAndSaveFilesToDir w metaImage = inr metadataDB →
  UpdatePluginInventoryDatabase w metadataDB inventoryDB = inr updatedDB →
  CopyFile w dbPath = None →
  catalogNameOK K →
  r.1 = None
  ∧ fs r.2 !! dbPath = Some updatedDB
  ∧ ∃ evs, trace r.2
           = trace c.2 ++ [EvVerifySignature (image od); EvMkdirTemp 1;
                           EvMkdirTemp 2; EvDownload (image od) 1;
                           EvDownload metaImage 2; EvUpdateDatabase;
                           EvCopyFile dbPath; EvRemoveAll 2; EvRemoveAll 1] ++ evs
           ∧ Forall (λ ev, ∃ p, ev = EvCreate p) evs.
Proof.
  cbv zeta. intros Herr Htrig Hv H1 H2 Hb Hm Hu Hcopy HK.
  rewrite fetchInventoryImage_triggered by done.
  destruct (checkImageCache_paths_ne_dbPath s HK) as [Hca Hcb].
  set (c := checkImageCache w od s) in *.
  set (s1 := mkState (fs c.2) (trace c.2 ++ [EvVerifySignature (image od)])).
  pose proof (downloadInventoryDatabase_run_merged inventoryDB metadataDB
                updatedDB s1 H1 H2 Hb Hm Hu) as Hd.
  rewrite Hcopy in Hd.
  rewrite refreshCache_run_ok; [|done|]; fold s1; rewrite Hd; [|done].
  simpl. split; [done|]. split.
  - rewrite !afterCreate_fs. simpl.
    repeat case_decide; repeat case_match;
      rewrite ?lookup_insert_ne by done; by rewrite lookup_insert_eq.
  - rewrite !afterCreate_trace. simpl.
    eexists. rewrite <- !app_assoc. simpl. split; [done|].
    apply Forall_app. split; case_decide; repeat constructor; by eexists.
Qed.

(** ** Digest files come last *)

(** The calls of [fetchInventoryImage] fall in two parts.  The first
    creates nothing; the second consists of creations of the digest files
    that the check asked for.  The second part is empty unless the call
    returns no error and the copy of the catalog file to the cache, which
    is in the first part, succeeded: a digest file is never created for a
    catalog that was not promoted. *)
Theorem digest_files_created_only_after_promotion (s : State) :
  let c := checkImageCache w od s in
  let r := fetchInventoryImage K w od s in
  ∃ pre post,
    trace r.2 = trace s ++ pre ++ post
    ∧ Forall (λ ev, ∀ p, ev ≠ EvCreate p) pre
    ∧ Forall (λ ev, ev = EvCreate c.1.1.1 ∨ ev = EvCreate c.1.1.2) post
    ∧ (post ≠ [] →
       r.1 = None ∧ CopyFile w dbPath = None ∧ EvCopyFile dbPath ∈ pre).
Proof.
  cbv zeta. rewrite fetchInventoryImage_unfold. cbv zeta.
  destruct (checkImageCache_frame w od s) as ((cev & Hcev & Hcheck) & _).
  assert (Hcheck' : Forall (λ ev, ∀ p, ev ≠ EvCreate p) cev).
  { eapply Forall_impl; [exact Hcheck|]. by intros [] ?. }
  set (c := checkImageCache w od s) in *.
  destruct (c.1.2) as [e|] eqn:Herr.
  { exists cev, []. simpl. rewrite app_nil_r.
    split; [done|]. split; [done|]. split; [constructor | done]. }
  destruct (decide (c.1.1.1 = "" ∧ c.1.1.2 = "")) as [Hboth|Htrig].
  { exists cev, []. simpl. rewrite app_nil_r.
    split; [done|]. split; [done|]. split; [constructor | done]. }
  destruct (VerifyInventoryImageSignature w (image od)) as [ev|] eqn:Hv.
  { rewrite (refreshCache_run_verify_err K w od _ _ ev) by done. simpl.
    exists (cev ++ [EvVerifySignature (image od)]), [].
    rewrite app_nil_r, Hcev, <- app_assoc. split; [done|].
    split; [|split; [constructor | done]].
    apply Forall_app. split; [done | by repeat constructor]. }
  set (s1 := mkState (fs c.2) (trace c.2 ++ [EvVerifySignature (image od)])).
  destruct (downloadInventoryDatabase_outcome s1)
    as (dev & Hdev & Hquiet & Hout).
  assert (Hpre : Forall (λ ev, ∀ p, ev ≠ EvCreate p)
                   (cev ++ [EvVerifySignature (image od)] ++ dev)).
  { apply Forall_app. split; [done|]. apply Forall_app.
    split; [by repeat constructor|].
    eapply Forall_impl; [exact Hquiet|]. by intros ? [_ ?]. }
  destruct Hout as [(Hd & Hcopy & Hin & _) | (Hd & _)].
  - rewrite refreshCache_run_ok by done. fold s1. simpl.
    rewrite !afterCreate_trace, Hdev. simpl.
    exists (cev ++ [EvVerifySignature (image od)] ++ dev),
      ((if decide (c.1.1.1 ≠ "") then [EvCreate c.1.1.1] else [])
       ++ (if decide (c.1.1.2 ≠ "") then [EvCreate c.1.1.2] else [])).
    split; [by rewrite Hcev, <- !app_assoc|]. split; [done|]. split.
    + apply Forall_app. split; case_decide;
        [ apply Forall_singleton; by left | constructor
        | apply Forall_singleton; by right | constructor ].
    + intros _. split; [done|]. split; [done|].
      apply elem_of_app. right. apply elem_of_app. by right.
  - destruct ((downloadInventoryDatabase K w od s1).1) as [ed|] eqn:Hde; [|done].
    rewrite (refreshCache_run_download_err K w od _ _ ed) by done.
    fold s1. simpl. rewrite Hdev. simpl.
    exists (cev ++ [EvVerifySignature (image od)] ++ dev), [].
    rewrite app_nil_r. split; [by rewrite Hcev, <- !app_assoc|].
    split; [done|]. split; [constructor | done].
Qed.

(** ** When a digest file cannot be created *)

Lemma checkDigestFileExistence_none (hashHexVal digestPrefix : string) (s : State) :
  (∀ p, ¬ isDigestFile dir digestPrefix (fs s) p) →
  checkDigestFileExistence od hashHexVal digestPrefix s
  = (expectedHashFile dir digestPrefix hashHexVal,
     mkState (fs s)
       (trace s ++ [EvGlob (Join dir (digestPrefix +:+ "digest.*"))])).
Proof.
  intros Hnone. rewrite checkDigestFileExistence_run. cbv zeta.
  assert (digestFiles dir digestPrefix (fs s) = []) as ->.
  { destruct (digestFiles dir digestPrefix (fs s)) as [|p l] eqn:Hl; [done|].
    exfalso. apply (Hnone p), elem_of_digestFiles. rewrite Hl.
    apply list_elem_of_here. }
  by rewrite decide_False by (simpl; lia).
Qed.

Lemma isDigestFile_insert_other (digestPrefix q c p : string)
    (files : gmap string string) :
  matchDigest dir digestPrefix q = false →
  isDigestFile dir digestPrefix (<[q := c]> files) p
  ↔ isDigestFile dir digestPrefix files p.
Proof.
  intros Hq. unfold isDigestFile. split; intros [Hp Hm]; (split; [|done]).
  - rewrite lookup_insert_ne in Hp; [done|]. intros ->. congruence.
  - rewrite lookup_insert_ne; [done|]. intros ->. congruence.
Qed.

(** The cache after a check that succeeded, prefix by prefix: an empty
    path means that the expected digest file is there, a path that no
    digest file of the prefix is left; in both cases no other digest file
    of the prefix is there. *)
Lemma checkImageCache_status (s : State) :
  let c := checkImageCache w od s in
  (GetImageDigest w (image od)).2 = None →
  ((c.1.1.1 = "" → isDigestFile dir "" (fs c.2) (expectedHashFile dir "" baseHash))
   ∧ (c.1.1.1 ≠ "" → ∀ p, ¬ isDigestFile dir "" (fs c.2) p)
   ∧ (∀ p, isDigestFile dir "" (fs c.2) p → p = expectedHashFile dir "" baseHash))
  ∧ ((c.1.1.2 = "" → isDigestFile dir "metadata." (fs c.2)
                        (expectedHashFile dir "metadata." metaHash))
     ∧ (c.1.1.2 ≠ "" → ∀ p, ¬ isDigestFile dir "metadata." (fs c.2) p)
     ∧ (∀ p, isDigestFile dir "metadata." (fs c.2) p
             → p = expectedHashFile dir "metadata." metaHash)).
Proof.
  cbv zeta. intros Hg. rewrite checkImageCache_run_ok by done. cbv zeta. simpl.
  set (s1 := mkState (fs s) (trace s ++ [EvGetImageDigest (image od)])).
  destruct (checkDigestFileExistence_answer baseHash "" s1) as (HA1 & HA2).
  destruct (checkDigestFileExistence_post od baseHash "" s1) as (_ & _ & HA3).
  set (rA := checkDigestFileExistence od baseHash "" s1) in *.
  set (s2 := mkState (fs rA.2) (trace rA.2 ++ [EvGetImageDigest metaImage])).
  destruct (checkDigestFileExistence_answer metaHash "metadata." s2) as (HB1 & HB2).
  destruct (checkDigestFileExistence_post od metaHash "metadata." s2)
    as (_ & _ & HB3).
  destruct (checkDigestFileExistence_frame od metaHash "metadata." s2)
    as (_ & Hframe & _).
  set (rB := checkDigestFileExistence od metaHash "metadata." s2) in *.
  assert (Hsame : ∀ p, isDigestFile dir "" (fs rB.2) p
                       ↔ isDigestFile dir "" (fs rA.2) p).
  { intros p. unfold isDigestFile. split; intros [Hp Hm]; (split; [|done]).
    - rewrite Hframe in Hp by (by apply matchDigest_base_not_metadata). done.
    - rewrite Hframe by (by apply matchDigest_base_not_metadata). done. }
  split; [|done].
  split; [|split].
  - intros Ha. by apply Hsame, HA1.
  - intros Ha p Hp%Hsame. by eapply HA2.
  - intros p Hp%Hsame. by apply HA3.
Qed.

(** The creation of the digest files is best effort.  When the refresh
    succeeded up to the promotion and [os.Create] fails on the digest
    files that the check asked for, [fetchInventoryImage] still returns
    no error; the only change to the cache is the new catalog file; and
    the next check asks for the very same digest files again, so the next
    call refreshes once more. *)
Theorem marker_creation_failure_forces_recheck (s : State) :
  let c := checkImageCache w od s in
  let s1 := mkState (fs c.2) (trace c.2 ++ [EvVerifySignature (image od)]) in
  let r := fetchInventoryImage K w od s in
  c.1.2 = None →
  ¬ (c.1.1.1 = "" ∧ c.1.1.2 = "") →
  VerifyInventoryImageSignature w (image od) = None →
  (downloadInventoryDatabase K w od s1).1 = None →
  (c.1.1.1 ≠ "" → Create w c.1.1.1 ≠ None) →
  (c.1.1.2 ≠ "" → Create w c.1.1.2 ≠ None) →
  catalogNameOK K →
  r.1 = None
  ∧ (∃ content, fs r.2 = <[dbPath := content]> (fs c.2))
  ∧ (checkImageCache w od r.2).1 = c.1.
Proof.
  cbv zeta. intros Herr Htrig Hv Hd HCa HCb [Hn1 Hn2].
  assert (Hg : (GetImageDigest w (image od)).2 = None).
  { destruct ((GetImageDigest w (image od)).2) as [e|] eqn:Hg; [|done].
    rewrite (checkImageCache_run_err w od e) in Herr by done. done. }
  destruct (checkImageCache_status s Hg)
    as ((HA1 & HA2 & HA3) & (HB1 & HB2 & HB3)).
  destruct (checkImageCache_paths s) as [HpA HpB].
  rewrite fetchInventoryImage_triggered by done.
  set (c := checkImageCache w od s) in *.
  set (s1 := mkState (fs c.2) (trace c.2 ++ [EvVerifySignature (image od)])) in *.
  rewrite refreshCache_run_ok by done. fold s1. simpl.
  destruct (downloadInventoryDatabase_success K w od s1 Hd) as [content Hc].
  simpl in Hc.
  assert (Hfs : fs (afterCreate w c.1.1.2
                      (afterCreate w c.1.1.1 (downloadInventoryDatabase K w od s1).2))
                = <[dbPath := content]> (fs c.2)).
  { rewrite !afterCreate_fs, Hc.
    destruct (decide (c.1.1.2 ≠ "")) as [Hb|Hb];
      destruct (decide (c.1.1.1 ≠ "")) as [Ha|Ha];
      try (specialize (HCa Ha)); try (specialize (HCb Hb));
      repeat case_match; done. }
  split; [done|]. split; [by exists content|].
  set (s' := afterCreate w c.1.1.2
               (afterCreate w c.1.1.1 (downloadInventoryDatabase K w od s1).2)) in *.
  assert (Hdb1 : matchDigest dir "" dbPath = false)
    by (by apply dbPath_not_digest).
  assert (Hdb2 : matchDigest dir "metadata." dbPath = false)
    by (by apply dbPath_not_digest).
  rewrite checkImageCache_run_ok by done. cbv zeta.
  set (t1 := mkState (fs s') (trace s' ++ [EvGetImageDigest (image od)])).
  assert (HrA : checkDigestFileExistence od baseHash "" t1
                = (c.1.1.1, mkState (fs s')
                              (trace t1 ++ [EvGlob (Join dir ("" +:+ "digest.*"))]))).
  { destruct (decide (c.1.1.1 = "")) as [Ha|Ha].
    - rewrite checkDigestFileExistence_current; [by rewrite Ha| |]; simpl;
        rewrite Hfs.
      + apply isDigestFile_insert_other; auto.
      + intros p Hp%isDigestFile_insert_other; auto.
    - destruct HpA as [?|HpA]; [done|].
      rewrite checkDigestFileExistence_none; [by rewrite HpA|].
      simpl. rewrite Hfs. intros p Hp%isDigestFile_insert_other; [|done].
      by eapply HA2. }
  rewrite HrA. simpl.
  match goal with
  | |- context [checkDigestFileExistence od metaHash "metadata." ?st] =>
      set (t2 := st)
  end.
  assert (HrB : (checkDigestFileExistence od metaHash "metadata." t2).1 = c.1.1.2).
  { destruct (decide (c.1.1.2 = "")) as [Hb|Hb].
    - rewrite checkDigestFileExistence_current; [by rewrite Hb| |]; simpl;
        rewrite Hfs.
      + apply isDigestFile_insert_other; auto.
      + intros p Hp%isDigestFile_insert_other; auto.
    - destruct HpB as [?|HpB]; [done|].
      rewrite checkDigestFileExistence_none; [by rewrite HpB|].
      simpl. rewrite Hfs. intros p Hp%isDigestFile_insert_other; [|done].
      by eapply HB2. }
  rewrite HrB.
  destruct c as [[[a b] err] sB]. simpl in *. by subst err.
Qed.

(** ** What a refresh may touch *)



(** ** The refresh in front of the queries *)

(** No call of the refresh is a query of the inventory or a write to the
    standard error stream. *)
Lemma fetchInventoryImage_no_query (s : State) :
  ∃ evs, trace (fetchInventoryImage K w od s).2 = trace s ++ evs
    ∧ Forall (λ ev, (∀ f, ev ≠ EvGetPlugins f) ∧ (∀ f, ev ≠ EvGetPluginGroups f)
                    ∧ (∀ n e, ev ≠ EvStderr n e)) evs.
Proof.
  rewrite fetchInventoryImage_unfold. cbv zeta.
  destruct (checkImageCache_frame w od s) as ((cev & Hcev & Hcheck) & _).
  assert (Hcheck' : Forall (λ ev, (∀ f, ev ≠ EvGetPlugins f)
                                  ∧ (∀ f, ev ≠ EvGetPluginGroups f)
                                  ∧ (∀ n e, ev ≠ EvStderr n e)) cev).
  { eapply Forall_impl; [exact Hcheck|]. by intros [] ?. }
  set (c := checkImageCache w od s) in *.
  destruct (c.1.2) as [e|]; [by exists cev|].
  destruct (decide (c.1.1.1 = "" ∧ c.1.1.2 = "")); [by exists cev|].
  assert (Hr : ∃ evs, trace (refreshCache K w od c.1.1.1 c.1.1.2 c.2).2
                      = trace c.2 ++ evs
                 ∧ Forall (λ ev, (∀ f, ev ≠ EvGetPlugins f)
                                 ∧ (∀ f, ev ≠ EvGetPluginGroups f)
                                 ∧ (∀ n e, ev ≠ EvStderr n e)) evs).
  { generalize (c.1.1.1) (c.1.1.2) (c.2). intros a b s0.
    unfold refreshCache, downloadInventoryDatabase, copyFile, osCreate.
    unfold_M. simpl.
    repeat (case_match; simpl in *; simplify_eq); norm_trace;
      (eexists; split; [reflexivity | by repeat constructor]). }
  destruct Hr as (rev & Hrev & Hquiet).
  exists (cev ++ rev). split.
  - by rewrite Hrev, Hcev, <- app_assoc.
  - by apply Forall_app.
Qed.

(** [List] and [GetGroups] of a discovery that does not use the local
    cache only.  When the refresh fails, they return no result and the
    error of the refresh wrapped with the name of the discovery, and the
    inventory is not queried.  When it succeeds, the query runs on the
    cache as the refresh left it. *)
Theorem queries_run_behind_the_refresh (s : State) :
  let r := fetchInventoryImage K w od s in
  useLocalCacheOnly od = false →
  match r.1 with
  | Some e =>
      List K w od s
      = ([], Some (Wrapf "unable to fetch the inventory of discovery '%s' for plugins"
                         [name od] e), r.2)
      ∧ GetGroups K w od s
        = ([], Some (Wrapf "unable to fetch the inventory of discovery '%s' for groups"
                           [name od] e), r.2)
      ∧ ∃ evs, trace r.2 = trace s ++ evs
               ∧ Forall (λ ev, (∀ f, ev ≠ EvGetPlugins f)
                               ∧ (∀ f, ev ≠ EvGetPluginGroups f)
                               ∧ (∀ n e, ev ≠ EvStderr n e)) evs
  | None =>
      List K w od s = listPluginsFromInventory K w od r.2
      ∧ GetGroups K w od s = listGroupsFromInventory K w od r.2
  end.
Proof.
  cbv zeta. intros Hlocal. unfold List, GetGroups. rewrite Hlocal.
  unfold mbind, M_bind.
  pose proof (fetchInventoryImage_no_query s) as Hq.
  destruct (fetchInventoryImage K w od s) as [[e|] s0]; simpl in *; done.
Qed.

End RefreshPaths.

(** * The plugin commands *)

Section CommandProofs.

Context {ArtifactList PluginDescriptor : Type}.
Variable (K : Constants).
Variable (env : CommandEnv ArtifactList PluginDescriptor).

Local Abbreviation standaloneKeys :=
  ["Name"; "Description"; "Target"; "Discovery"; "Version"; "Status"].
Local Abbreviation contextKeys :=
  ["Name"; "Description"; "Target"; "Version"; "Status"].

(** Unfolds the operations of the state monad of the commands. *)
Ltac unfold_CM := unfold mbind, CM_bind, mret, CM_ret, record, getFlags, setLocal.

(** ** The two views *)

Lemma foldl_AddRow (output0 : OutputWriter) (data : list (list string)) :
  foldl AddRow output0 data
  = {| Writer_Format := Writer_Format output0;
       Writer_Keys := Writer_Keys output0;
       Writer_Rows := Writer_Rows output0 ++ data |}.
Proof.
  revert output0. induction data as [|row data IH]; intros [fmt keys rows]; simpl.
  - by rewrite app_nil_r.
  - rewrite IH. simpl. by rewrite <- app_assoc.
Qed.

Lemma forEachC_run {A} (f : A → CM unit) (g : A → list call) (l : list A)
    (s : CommandState) :
  (∀ x s', f x s' = (tt, mkCommandState (flags s') (calls s' ++ g x))) →
  forEachC f l s = (tt, mkCommandState (flags s) (calls s ++ concat (map g l))).
Proof.
  intros Hf. revert s. induction l as [|x l IH]; intros [fl cs]; simpl.
  - unfold mret, CM_ret. by rewrite app_nil_r.
  - unfold mbind, CM_bind. rewrite Hf, IH. simpl. by rewrite <- app_assoc.
Qed.

Lemma standalonePlugins_cons (p : Discovered ArtifactList)
    (l : list (Discovered ArtifactList)) :
  standalonePlugins K (p :: l)
  = if decide (Scope p = PluginScopeStandalone K)
    then p :: standalonePlugins K l else standalonePlugins K l.
Proof.
  unfold standalonePlugins. case_decide.
  - by rewrite filter_cons_True.
  - by rewrite filter_cons_False.
Qed.

Lemma contextPlugins_cons (context : string) (p : Discovered ArtifactList)
    (l : list (Discovered ArtifactList)) :
  contextPlugins K context (p :: l)
  = if decide (Scope p ≠ PluginScopeStandalone K ∧ ContextName p = context)
    then p :: contextPlugins K context l else contextPlugins K context l.
Proof.
  unfold contextPlugins. case_decide.
  - by rewrite filter_cons_True.
  - by rewrite filter_cons_False.
Qed.

(** The loop of the split view: the standalone rows, the rows of every
    context and the writers of the contexts, whatever it starts from. *)
Lemma foldl_splitStep (format : string) (plugins : list (Discovered ArtifactList))
    (dataStandalone : list (list string))
    (dataContext : gmap string (list (list string)))
    (outputContext : gmap string OutputWriter) :
  let r := foldl (splitStep K format) (dataStandalone, dataContext, outputContext)
             plugins in
  r.1.1 = dataStandalone ++ map standaloneRow (standalonePlugins K plugins)
  ∧ (∀ context,
       default [] (r.1.2 !! context)
       = default [] (dataContext !! context)
         ++ map contextRow (contextPlugins K context plugins))
  ∧ (∀ context,
       r.2 !! context
       = if decide (contextPlugins K context plugins = [])
         then outputContext !! context
         else Some (NewOutputWriter format contextKeys)).
Proof.
  cbv zeta. revert dataStandalone dataContext outputContext.
  induction plugins as [|p l IH]; intros ds dc oc.
  - simpl. rewrite app_nil_r. split; [done|]. split; intros context.
    + by rewrite app_nil_r.
    + done.
  - change (foldl (splitStep K format) (ds, dc, oc) (p :: l))
      with (foldl (splitStep K format) (splitStep K format (ds, dc, oc) p) l).
    unfold splitStep at 2 4 6. rewrite standalonePlugins_cons.
    destruct (decide (Scope p = PluginScopeStandalone K)) as [Hs|Hs].
    + destruct (IH (ds ++ [standaloneRow p]) dc oc) as (H1 & H2 & H3).
      split; [|split].
      * rewrite H1. simpl. by rewrite <- app_assoc.
      * intros context. rewrite H2, contextPlugins_cons.
        rewrite decide_False; [done | tauto].
      * intros context. rewrite H3, contextPlugins_cons.
        rewrite (decide_False (P := _ ∧ _)); [done | tauto].
    + destruct (IH ds
                  (<[ContextName p :=
                       default [] (dc !! ContextName p) ++ [contextRow p]]> dc)
                  (<[ContextName p := NewOutputWriter format contextKeys]> oc))
        as (H1 & H2 & H3).
      split; [done|]. split.
      * intros context. rewrite H2, contextPlugins_cons.
        destruct (decide (ContextName p = context)) as [<-|Hc].
        -- rewrite lookup_insert_eq, decide_True by done. simpl.
           by rewrite <- app_assoc.
        -- rewrite lookup_insert_ne by done.
           rewrite decide_False; [done | tauto].
      * intros context. rewrite H3, contextPlugins_cons.
        destruct (decide (ContextName p = context)) as [<-|Hc].
        -- rewrite lookup_insert_eq, (decide_True (P := _ ∧ _)) by done.
           rewrite (decide_False (P := _ :: _ = [])) by done.
           by case_decide.
        -- rewrite lookup_insert_ne by done.
           rewrite (decide_False (P := _ ∧ _)); [done | tauto].
Qed.

Lemma concat_map_fst {A B C} (g1 : A * B → list C) (g2 : A → list C)
    (l : list (A * B)) :
  (∀ a b, (a, b) ∈ l → g1 (a, b) = g2 a) →
  concat (map g1 l) = concat (map g2 l.*1).
Proof.
  induction l as [|[a b] l IH]; intros Hg; simpl; [done|].
  rewrite (Hg a b) by apply list_elem_of_here.
  rewrite IH; [done|]. intros a' b' Hin. by apply Hg, list_elem_of_further.
Qed.

(** The list view renders one table and nothing else: it has the format
    of the [--output] flag and six keys, and its rows are the rows of the
    plugins, one per plugin and in their order, each as wide as the
    keys. *)
Theorem list_view_one_row_per_plugin
    (availablePlugins : list (Discovered ArtifactList)) (s : CommandState) :
  ∃ table,
    displayPluginListOutputListView availablePlugins s
    = (tt, mkCommandState (flags s) (calls s ++ [Stdout (Render table)]))
    ∧ Writer_Format table = outputFormat (flags s)
    ∧ Writer_Rows table = map listRow availablePlugins
    ∧ length (Writer_Rows table) = length availablePlugins
    ∧ Forall (λ row, length row = length (Writer_Keys table)) (Writer_Rows table).
Proof.
  exists (foldl AddRow
            (NewOutputWriter (outputFormat (flags s))
               ["Name"; "Description"; "Scope"; "Discovery"; "Version"; "Status"])
            (map listRow availablePlugins)).
  split; [reflexivity|].
  rewrite foldl_AddRow. simpl. split; [done|]. split; [done|].
  split; [by rewrite length_map|].
  apply Forall_forall. intros row [p [-> _]]%list_elem_of_fmap. done.
Qed.

Lemma displayPluginListOutputSplitViewContext_run
    (availablePlugins : list (Discovered ArtifactList)) (s : CommandState) :
  ∃ contexts,
    displayPluginListOutputSplitViewContext K availablePlugins s
    = (tt,
       mkCommandState (flags s)
         (calls s
          ++ [Stdout StandaloneHeading;
              Stdout (Render
                        {| Writer_Format := outputFormat (flags s);
                           Writer_Keys := standaloneKeys;
                           Writer_Rows :=
                             map standaloneRow
                                 (standalonePlugins K availablePlugins) |})]
          ++ concat
               (map (λ context,
                       [Stdout (Println ""); Stdout (ContextHeading context);
                        Stdout (Render
                                  (contextTable (outputFormat (flags s))
                                     (map contextRow
                                        (contextPlugins K context
                                           availablePlugins))))])
                    contexts)))
    ∧ NoDup contexts
    ∧ ∀ context, context ∈ contexts
                 ↔ contextPlugins K context availablePlugins ≠ [].
Proof.
  unfold displayPluginListOutputSplitViewContext.
  unfold mbind at 1. unfold CM_bind at 1. unfold getFlags at 1.
  destruct (foldl_splitStep (outputFormat (flags s)) availablePlugins [] ∅ ∅)
    as (H1 & H2 & H3).
  destruct (foldl (splitStep K (outputFormat (flags s))) ([], ∅, ∅) availablePlugins)
    as [[ds dc] oc] eqn:Hfold.
  simpl in H1, H2, H3.
  exists (map_to_list oc).*1. split; [|split].
  - unfold mbind, CM_bind, record. simpl.
    rewrite (forEachC_run _
               (λ cw : string * OutputWriter,
                  [Stdout (Println ""); Stdout (ContextHeading cw.1);
                   Stdout (Render (foldl AddRow cw.2 (default [] (dc !! cw.1))))])).
    2:{ intros [context writer] s'. simpl. by rewrite <- !app_assoc. }
    simpl. rewrite foldl_AddRow, H1. simpl.
    rewrite <- !app_assoc. simpl. do 5 f_equal.
    apply concat_map_fst. intros context writer Hw%elem_of_map_to_list.
    rewrite H3 in Hw. case_decide; [done|]. simplify_eq.
    rewrite foldl_AddRow, H2. simpl. done.
  - apply NoDup_fst_map_to_list.
  - intros context. rewrite list_elem_of_fmap. split.
    + intros [[c writer] [-> Hin%elem_of_map_to_list]]. simpl.
      rewrite H3 in Hin. by case_decide.
    + intros Hne. exists (context, NewOutputWriter (outputFormat (flags s)) contextKeys).
      split; [done|]. apply elem_of_map_to_list. rewrite H3.
      by rewrite decide_False.
Qed.

(** The split view sorts every plugin into exactly one table.  It prints
    the heading and the table of the standalone plugins, whose rows are
    those of the plugins of standalone scope, in their order; then, for
    every context that has a plugin of another scope, once, an empty
    line, the heading of the context and its table, whose rows are those
    of the plugins of that context, in their order. *)
Theorem split_view_partitions_plugins
    (availablePlugins : list (Discovered ArtifactList)) (s : CommandState) :
  ∃ contexts,
    displayPluginListOutputSplitViewContext K availablePlugins s
    = (tt,
       mkCommandState (flags s)
         (calls s
          ++ [Stdout StandaloneHeading;
              Stdout (Render
                        {| Writer_Format := outputFormat (flags s);
                           Writer_Keys := standaloneKeys;
                           Writer_Rows :=
                             map standaloneRow
                                 (standalonePlugins K availablePlugins) |})]
          ++ concat
               (map (λ context,
                       [Stdout (Println ""); Stdout (ContextHeading context);
                        Stdout (Render
                                  (contextTable (outputFormat (flags s))
                                     (map contextRow
                                        (contextPlugins K context
                                           availablePlugins))))])
                    contexts)))
    ∧ NoDup contexts
    ∧ ∀ context, context ∈ contexts
                 ↔ contextPlugins K context availablePlugins ≠ [].
Proof. apply displayPluginListOutputSplitViewContext_run. Qed.

(** The version column shows the installed version of a plugin, and its
    recommended version when it is not installed. *)
Lemma getInstalledElseAvailablePluginVersion_cases (p : Discovered ArtifactList) :
  (InstalledVersion p ≠ "" →
     getInstalledElseAvailablePluginVersion p = InstalledVersion p)
  ∧ (InstalledVersion p = "" →
       getInstalledElseAvailablePluginVersion p = RecommendedVersion p).
Proof.
  unfold getInstalledElseAvailablePluginVersion. cbv zeta.
  split; intros H; by case_decide.
Qed.

(** ** The plugins of an OCI discovery in the views *)

Lemma standalonePlugins_all (plugins : list (Discovered ArtifactList)) :
  Forall (λ p, Scope p = PluginScopeStandalone K) plugins →
  standalonePlugins K plugins = plugins
  ∧ ∀ context, contextPlugins K context plugins = [].
Proof.
  induction 1 as [|p l Hp _ [IH1 IH2]]; [done|]. split.
  - by rewrite standalonePlugins_cons, decide_True, IH1.
  - intros context. rewrite contextPlugins_cons, decide_False; [done | tauto].
Qed.

Lemma List_results {PluginGroup : Type} (w : World)
    (od : DBBackedOCIDiscovery ArtifactList PluginGroup) (sd : State) :
  Forall (λ d, ∃ entry, d = discovered K w od entry) (List K w od sd).1.1.
Proof.
  assert (Hall : ∀ s', Forall (λ d, ∃ entry, d = discovered K w od entry)
                         (listPluginsFromInventory K w od s').1.1).
  { intros s'. rewrite listPluginsFromInventory_run. cbv zeta.
    destruct (GetPlugins _ _ _).2; simpl; [constructor|].
    apply Forall_forall. intros d [entry [-> _]]%list_elem_of_fmap. by exists entry. }
  unfold List. destruct (useLocalCacheOnly od); [apply Hall|].
  unfold mbind, M_bind.
  destruct (fetchInventoryImage K w od sd) as [[e|] s0]; [constructor|].
  apply Hall.
Qed.

(** The plugins that [List] of an OCI discovery returns, shown by the
    split view: they are all of standalone scope, so the view prints the
    table of the standalone plugins with one row per plugin, in their
    order, and no table of a context; and as none is installed yet, the
    version column of every row is the recommended version. *)
Theorem discovered_plugins_are_listed_standalone {PluginGroup : Type} (w : World)
    (od : DBBackedOCIDiscovery ArtifactList PluginGroup) (sd : State)
    (s : CommandState) :
  let plugins := (List K w od sd).1.1 in
  displayPluginListOutputSplitViewContext K plugins s
  = (tt,
     mkCommandState (flags s)
       (calls s
        ++ [Stdout StandaloneHeading;
            Stdout (Render {| Writer_Format := outputFormat (flags s);
                              Writer_Keys := standaloneKeys;
                              Writer_Rows := map standaloneRow plugins |})]))
  ∧ Forall (λ p, getInstalledElseAvailablePluginVersion p = RecommendedVersion p)
           plugins.
Proof.
  cbv zeta. pose proof (List_results w od sd) as Hres.
  set (plugins := (List K w od sd).1.1) in *.
  assert (Hscope : Forall (λ p, Scope p = PluginScopeStandalone K) plugins).
  { eapply Forall_impl; [exact Hres|]. intros d [entry ->].
    unfold discovered, discoverEntry.
    by destruct (SortVersions w _) as [versions [e|]]. }
  destruct (standalonePlugins_all plugins Hscope) as [Hst Hctx].
  split.
  - destruct (displayPluginListOutputSplitViewContext_run plugins s)
      as (contexts & Hrun & _ & Hin).
    assert (contexts = []) as ->.
    { destruct contexts as [|c l]; [done|]. exfalso.
      by apply (Hin c); [apply list_elem_of_here|]. }
    rewrite Hrun, Hst. simpl. by rewrite ?app_nil_r.
  - eapply Forall_impl; [exact Hres|]. intros d [entry ->].
    apply getInstalledElseAvailablePluginVersion_cases.
    unfold discovered, discoverEntry.
    by destruct (SortVersions w _) as [versions [e|]].
Qed.

(** ** The commands *)

Ltac run_cmd :=
  unfold newListPluginCmd, newDescribePluginCmd, newInstallPluginCmd,
    newUpgradePluginCmd, newDeletePluginCmd, newCleanPluginCmd,
    newSyncPluginCmd, getTarget, ExactArgs;
  unfold_CM;
  repeat (simpl in *; case_match; simplify_eq);
  simpl in *; rewrite <- ?app_assoc; simpl.

(** [describe], [install], [upgrade] and [delete] check their arguments
    before anything else: called with a number of arguments other than
    one, or with a target flag that is not a valid target, each returns
    an error without a call to the plugin manager, without output and
    without a change of the flags. *)
Theorem commands_validate_before_any_call
    (cmd : list string → CM (option error)) (args : list string)
    (s : CommandState) :
  cmd ∈ [newDescribePluginCmd env; newInstallPluginCmd env;
         newUpgradePluginCmd env; newDeletePluginCmd env] →
  length args ≠ 1 ∨ IsValidTarget env (targetStr (flags s)) = false →
  ∃ e, cmd args s = (Some e, s).
Proof.
  intros Hcmd Hbad.
  rewrite !elem_of_cons, elem_of_nil in Hcmd.
  destruct Hcmd as [-> | [-> | [-> | [-> | []]]]];
    destruct Hbad as [Hlen | Htarget];
    try (destruct args as [|a [|b args]]; [| done |]);
    run_cmd; eauto;
    try congruence; rewrite Htarget in *; simpl in *; congruence.
Qed.

Ltac logged :=
  eexists; (split; [reflexivity|]); simpl;
  lazymatch goal with
  | |- Forall _ _ => by repeat constructor
  | |- ∃ _ _ _, [LogSuccess ?f ?a] = _ ∧ _ => exists [], f, a
  | |- ∃ _ _ _, [?c; LogSuccess ?f ?a] = _ ∧ _ => exists [c], f, a
  | |- ∃ _ _ _, [?c; ?d; LogSuccess ?f ?a] = _ ∧ _ => exists [c; d], f, a
  end; (split; [reflexivity | by repeat constructor]).

(** [install], [upgrade], [delete], [clean] and [sync] report success
    exactly when they succeed: whatever the arguments and the answers of
    the plugin manager, a command that returns no error logged a success
    message as its last action and only then, and a command that returns
    an error logged none. *)
Theorem success_is_logged_exactly_on_success (args : list string)
    (s : CommandState) :
  Forall (λ cmd : list string → CM (option error),
            ∃ evs, calls (cmd args s).2 = calls s ++ evs
                   ∧ successLogged (cmd args s).1 evs)
         [newInstallPluginCmd env; newUpgradePluginCmd env;
          newDeletePluginCmd env; newCleanPluginCmd env;
          newSyncPluginCmd env].
Proof.
  repeat apply Forall_cons_2; try apply Forall_nil_2.
  all: run_cmd.
  all: try (exists []; split; [by rewrite app_nil_r | constructor]).
  all: logged.
Qed.

Ltac clear_decide :=
  repeat match goal with H : decide _ = _ |- _ => clear H end.

Ltac in_calls H :=
  repeat (apply elem_of_cons in H as [-> | H]); [.. | by apply elem_of_nil in H].

(** What [install] installs.  It makes at most one call that changes the
    installed plugins, and only for one plugin name and a valid target.
    That call is: with a local source, the installation from the
    absolute path of that source, with the version flag as it is;
    otherwise, for the name that stands for all plugins, a sync;
    otherwise the installation of the version of the version flag, or,
    when that flag asks for the latest version, of the version that the
    plugin manager recommends, and of none when that lookup fails. *)
Theorem install_command_dispatch (args : list string) (s : CommandState) :
  let r := newInstallPluginCmd env args s in
  let f := flags s in
  let target := StringToTarget env (ToLower env (targetStr f)) in
  ∃ evs, calls r.2 = calls s ++ evs
    ∧ length (filter (λ c, isLifecycleCall c = true) evs) ≤ 1
    ∧ ∀ c, c ∈ evs → isLifecycleCall c = true →
        ∃ pluginName,
          args = [pluginName]
          ∧ IsValidTarget env (targetStr f) = true
          ∧ if decide (local f ≠ "") then
              ∃ path, Abs env (local f) = (path, None)
                      ∧ c = CallInstallPluginsFromLocalSource
                              pluginName (version f) target path false
            else if decide (pluginName = AllPlugins env) then
              c = CallSyncPlugins
            else if decide (version f = VersionLatest env) then
              ∃ pluginVersion,
                GetRecommendedVersionOfPlugin env pluginName target
                = (pluginVersion, None)
                ∧ c = CallInstallPlugin pluginName pluginVersion target
            else c = CallInstallPlugin pluginName (version f) target.
Proof.
  cbv zeta. destruct args as [|a [|b args]].
  1,3: exists []; run_cmd; rewrite app_nil_r;
       (split; [done|]); (split; [simpl; lia|]);
       by intros c Hc%elem_of_nil.
  unfold newInstallPluginCmd, getTarget, ExactArgs. unfold_CM. simpl.
  destruct (IsValidTarget env (targetStr (flags s))) eqn:Hvalid; simpl;
    [| exists []; rewrite app_nil_r; (split; [done|]); (split; [simpl; lia|]);
       by intros c Hc%elem_of_nil].
  repeat (case_match; simplify_eq; simpl in * );
    rewrite <- ?app_assoc; simpl;
    first [ exists []; split; [by rewrite app_nil_r|]
          | eexists; split; [reflexivity|] ];
    (split; [simpl; lia|]);
    intros cl Hc Hlife; in_calls Hc; try discriminate Hlife;
    (eexists; split; [reflexivity|]); (split; [done|]);
    clear_decide; repeat case_decide; try done; eauto.
Qed.

(** What [upgrade] upgrades.  It makes at most one call that changes the
    installed plugins, only for one plugin name and a valid target: the
    upgrade of that plugin to the version that the plugin manager
    recommends for it, and no upgrade when that lookup fails. *)
Theorem upgrade_command_dispatch (args : list string) (s : CommandState) :
  let r := newUpgradePluginCmd env args s in
  let target := StringToTarget env (ToLower env (targetStr (flags s))) in
  ∃ evs, calls r.2 = calls s ++ evs
    ∧ length (filter (λ c, isLifecycleCall c = true) evs) ≤ 1
    ∧ ∀ c, c ∈ evs → isLifecycleCall c = true →
        ∃ pluginName pluginVersion,
          args = [pluginName]
          ∧ IsValidTarget env (targetStr (flags s)) = true
          ∧ GetRecommendedVersionOfPlugin env pluginName target
            = (pluginVersion, None)
          ∧ c = CallUpgradePlugin pluginName pluginVersion target.
Proof.
  cbv zeta. run_cmd;
    first [ exists []; split; [by rewrite app_nil_r|]
          | eexists; split; [reflexivity|] ];
    (split; [simpl; lia|]);
    intros cl Hc Hlife; in_calls Hc; try discriminate Hlife.
  all: do 2 eexists; split; [reflexivity|].
  all: split; [by destruct (IsValidTarget env _)|]. all: eauto.
Qed.

Lemma views_print (b : bool) (plugins : list (Discovered ArtifactList))
    (s : CommandState) :
  ∃ outs,
    outs ≠ []
    ∧ (if b then displayPluginListOutputSplitViewContext K plugins
       else displayPluginListOutputListView plugins) s
      = (tt, mkCommandState (flags s) (calls s ++ map Stdout outs)).
Proof.
  destruct b.
  - destruct (displayPluginListOutputSplitViewContext_run plugins s)
      as (contexts & -> & _).
    set (format := outputFormat (flags s)).
    exists ([StandaloneHeading;
             Render {| Writer_Format := format;
                       Writer_Keys := standaloneKeys;
                       Writer_Rows := map standaloneRow
                                        (standalonePlugins K plugins) |}]
            ++ concat (map (λ context,
                              [Println ""; ContextHeading context;
                               Render (contextTable format
                                         (map contextRow
                                            (contextPlugins K context plugins)))])
                           contexts)).
    split; [done|]. do 3 f_equal. rewrite map_app. f_equal.
    induction contexts as [|c l IH]; [done|]. simpl. by rewrite IH.
  - exists [Render (foldl AddRow
                      (NewOutputWriter (outputFormat (flags s))
                         ["Name"; "Description"; "Scope"; "Discovery";
                          "Version"; "Status"])
                      (map listRow plugins))].
    split; [done|]. reflexivity.
Qed.

(** [list] and [describe] only read.  Neither ever makes a call that
    changes the installed plugins.  When one returns an error it has made
    no call at all or one query to the plugin manager and nothing else:
    it has printed nothing and logged nothing.  When it returns none it
    has made one query to the plugin manager and then printed, and done
    nothing else. *)
Theorem list_and_describe_only_read (args : list string) (s : CommandState) :
  Forall (λ cmd : list string → CM (option error),
            ∃ evs, calls (cmd args s).2 = calls s ++ evs
              ∧ match (cmd args s).1 with
                | Some _ =>
                    evs = []
                    ∨ ∃ q, evs = [q]
                           ∧ isPluginManagerCall q = true
                           ∧ isLifecycleCall q = false
                | None =>
                    ∃ q outs, evs = q :: map Stdout outs
                              ∧ outs ≠ []
                              ∧ isPluginManagerCall q = true
                              ∧ isLifecycleCall q = false
                end)
         [newListPluginCmd K env; newDescribePluginCmd env].
Proof.
  repeat apply Forall_cons_2; try apply Forall_nil_2.
  - unfold newListPluginCmd. unfold_CM. cbn [fst snd flags calls].
    set (b := IsFeatureActivated env (FeatureContextCommand env) && _).
    destruct (decide (local (flags s) ≠ "")) as [Hlocal|Hlocal].
    + destruct (Abs env (local (flags s))) as [path [e|]] eqn:Habs; simpl.
      { exists []. rewrite app_nil_r. split; [done | by left]. }
      destruct (AvailablePluginsFromLocalSource env path)
        as [plugins [e|]] eqn:Hq; simpl.
      { eexists. split; [reflexivity|]. right.
        by exists (CallAvailablePluginsFromLocalSource path). }
      match goal with
      | |- context [(if b then ?v1 else ?v2) ?s'] =>
          destruct (views_print b (DiscoveredSorter env plugins) s')
            as (outs & Hne & Hv)
      end.
      rewrite Hv. simpl. rewrite <- app_assoc.
      eexists. split; [reflexivity|].
      by exists (CallAvailablePluginsFromLocalSource path), outs.
    + destruct (AvailablePlugins env) as [plugins [e|]] eqn:Hq; simpl.
      { eexists. split; [reflexivity|]. right. by exists CallAvailablePlugins. }
      match goal with
      | |- context [(if b then ?v1 else ?v2) ?s'] =>
          destruct (views_print b (DiscoveredSorter env plugins) s')
            as (outs & Hne & Hv)
      end.
      rewrite Hv. simpl. rewrite <- app_assoc.
      eexists. split; [reflexivity|]. by exists CallAvailablePlugins, outs.
  - run_cmd;
      first [ exists []; split; [by rewrite app_nil_r | by left]
            | eexists; split; [reflexivity|] ];
      first [ by right; eexists
            | by eexists _, [_] ].
Qed.

(** The commands leave the flags alone, but for one: [list] and
    [install] called with a local source overwrite the flag of the local
    source by what [filepath.Abs] returns for it, also when that reports
    an error.  No command changes the version, force-delete, output
    format or target flag, and [describe], [upgrade], [delete], [clean]
    and [sync] change no flag at all. *)
Theorem commands_change_no_flag_but_local (args : list string)
    (s : CommandState) :
  Forall (λ cmd : list string → CM (option error),
            let f' := flags (cmd args s).2 in
            version f' = version (flags s)
            ∧ forceDelete f' = forceDelete (flags s)
            ∧ outputFormat f' = outputFormat (flags s)
            ∧ targetStr f' = targetStr (flags s)
            ∧ (local f' = local (flags s)
               ∨ local (flags s) ≠ ""
                 ∧ local f' = (Abs env (local (flags s))).1))
         [newListPluginCmd K env; newInstallPluginCmd env]
  ∧ Forall (λ cmd : list string → CM (option error),
              flags (cmd args s).2 = flags s)
           [newDescribePluginCmd env; newUpgradePluginCmd env;
            newDeletePluginCmd env; newCleanPluginCmd env;
            newSyncPluginCmd env].
Proof.
  split; repeat apply Forall_cons_2; try apply Forall_nil_2.
  2-7: run_cmd; repeat split; eauto;
         right; (split; [done|]);
         by match goal with H : Abs _ _ = _ |- _ => rewrite H end.
  cbv zeta. unfold newListPluginCmd. unfold_CM. cbn [fst snd flags calls].
  set (b := IsFeatureActivated env (FeatureContextCommand env) && _).
  destruct (decide (local (flags s) ≠ "")) as [Hlocal|Hlocal].
  - destruct (Abs env (local (flags s))) as [path [e|]] eqn:Habs; simpl.
    { repeat split; eauto. }
    destruct (AvailablePluginsFromLocalSource env path)
      as [plugins [e|]] eqn:Hq; simpl.
    { repeat split; eauto. }
    match goal with
    | |- context [(if b then ?v1 else ?v2) ?s'] =>
        destruct (views_print b (DiscoveredSorter env plugins) s')
          as (outs & Hne & Hv)
    end.
    rewrite Hv. simpl. repeat split; eauto.
  - destruct (AvailablePlugins env) as [plugins [e|]] eqn:Hq; simpl.
    { repeat split; eauto. }
    match goal with
    | |- context [(if b then ?v1 else ?v2) ?s'] =>
        destruct (views_print b (DiscoveredSorter env plugins) s')
          as (outs & Hne & Hv)
    end.
    rewrite Hv. simpl. repeat split; eauto.
Qed.

End CommandProofs.

(** * The new properties at the example *)


(** A registry that answers the probes and refuses the download: the
    stale digest file is gone, the old catalog stays. *)
Lemma base_download_failure_aborts_witness :
  let r := fetchInventoryImage exampleConstants worldDownloadFails
             (exampleDiscovery false) staleCache in
  r.1 = Some (Wrapf "failed to download OCI image from discovery '%s'" ["default"]
                (ErrExternal "connection reset"))
  ∧ fs r.2 !! "cache/plugin_inventory.db" = Some "old catalog"
  ∧ fs r.2 !! "cache/digest.OLD" = None.
Proof.
  cbv zeta.
  destruct (base_download_failure_aborts exampleConstants worldDownloadFails
              (exampleDiscovery false) (ErrExternal "connection reset") staleCache
              eq_refl ltac:(vm_compute; intros [? ?]; discriminate)
              eq_refl eq_refl eq_refl eq_refl)
    as (Hr & Hfs & _).
  split; [exact Hr|]. rewrite Hfs. split; reflexivity.
Defined.

(** A first refresh with an overlay: the cache holds the merged catalog. *)
Lemma overlay_is_merged_before_promotion_witness :
  let r := fetchInventoryImage exampleConstants worldOverlayMerges
             (exampleDiscovery false) emptyCache in
  r.1 = None
  ∧ fs r.2 !! "cache/plugin_inventory.db" = Some "merged catalog".
Proof.
  cbv zeta.
  destruct (overlay_is_merged_before_promotion exampleConstants worldOverlayMerges
              (exampleDiscovery false) "base catalog" "overlay" "merged catalog"
              emptyCache
              eq_refl ltac:(vm_compute; intros [? ?]; discriminate)
              eq_refl eq_refl eq_refl eq_refl eq_refl eq_refl eq_refl
              (conj eq_refl eq_refl))
    as (Hr & Hfs & _).
  split; [exact Hr | exact Hfs].
Defined.

(** A cache directory in which [os.Create] fails: the refresh succeeds,
    the catalog is there, and the check asks for both digest files again. *)
Lemma marker_creation_failure_forces_recheck_witness :
  let od := exampleDiscovery false in
  let r := fetchInventoryImage exampleConstants worldNoCreate od emptyCache in
  r.1 = None
  ∧ fs r.2 !! "cache/plugin_inventory.db" = Some "base catalog"
  ∧ (checkImageCache worldNoCreate od r.2).1
    = ("cache/digest.D1", "cache/metadata.digest.none", None).
Proof.
  cbv zeta.
  destruct (marker_creation_failure_forces_recheck exampleConstants worldNoCreate
              (exampleDiscovery false) emptyCache
              eq_refl ltac:(vm_compute; intros [? ?]; discriminate)
              eq_refl eq_refl
              ltac:(intros _ H; vm_compute in H; discriminate)
              ltac:(intros _ H; vm_compute in H; discriminate)
              (conj eq_refl eq_refl))
    as (Hr & _ & Hc).
  split; [exact Hr|]. split; [reflexivity|]. rewrite Hc. reflexivity.
Defined.

(** An image reference that does not resolve: [List] and [GetGroups]
    return the wrapped error of the probe. *)
Lemma queries_run_behind_the_refresh_witness :
  let od := exampleDiscovery false in
  useLocalCacheOnly od = false
  ∧ ∃ e, (fetchInventoryImage exampleConstants worldUnresolved od emptyCache).1
         = Some e
         ∧ (List exampleConstants worldUnresolved od emptyCache).1
           = ([], Some (Wrapf "unable to fetch the inventory of discovery '%s' for plugins"
                          ["default"] e))
         ∧ (GetGroups exampleConstants worldUnresolved od emptyCache).1
           = ([], Some (Wrapf "unable to fetch the inventory of discovery '%s' for groups"
                          ["default"] e)).
Proof.
  cbv zeta. split; [reflexivity|].
  assert (H := queries_run_behind_the_refresh exampleConstants worldUnresolved
                 (exampleDiscovery false) emptyCache eq_refl).
  destruct (fetchInventoryImage exampleConstants worldUnresolved
              (exampleDiscovery false) emptyCache).1 as [e|] eqn:He.
  - destruct H as (HL & HG & _). exists e. rewrite HL, HG.
    split; [reflexivity|]. split; reflexivity.
  - vm_compute in He. discriminate.
Defined.

(** [delete] with a target that is no target: an error, and no call. *)
Lemma commands_validate_before_any_call_witness :
  IsValidTarget exampleEnv "aws" = false
  ∧ ∃ e, newDeletePluginCmd exampleEnv ["cluster"] (exampleCommandState "aws")
         = (Some e, exampleCommandState "aws").
Proof.
  split; [reflexivity|].
  apply (commands_validate_before_any_call exampleEnv).
  - do 3 apply list_elem_of_further. apply list_elem_of_here.
  - right. reflexivity.
Defined.
